(** * hapi: session synchronisation hub

  A shallow embedding of the sync engine (sync/syncEngine.ts), the message
  service (sync/messageService.ts), the agent manager
  (agent/agentManager.ts), the in-process transport
  (cli/src/api/LocalTransport.ts) and the route guards
  (web/routes/guards.ts, web/routes/cli.ts, web/routes/machines.ts),
  followed by the properties of the specification that concern them.

  Conventions.  A JavaScript value of type [string | undefined] is an
  [option string]; integers (versions, sequence numbers, milliseconds, HTTP
  statuses) are in [Z]; a [Map<string, V>] is a [gmap string V].  A call
  that may throw returns a [Completion]. *)

From Stdlib Require Import ZArith Lia.
From Equations Require Import Equations.
From stdpp Require Import base numbers strings list gmap option.

(** ** JavaScript completions and truthiness *)

Module Js.

(** What a [catch (error)] clause can receive. *)
Inductive Thrown :=
| ErrorObject (message : string)   (* error instanceof Error *)
| OtherValue (shown : string).     (* anything else; [shown] is String(error) *)

Inductive Completion (A : Type) :=
| Normal (a : A)
| Throw (e : Thrown).
Global Arguments Normal {A} a.
Global Arguments Throw {A} e.

(** [if (s)] for [s : string | undefined]: absent and empty are falsy. *)
Definition truthy (s : option string) : bool :=
  match s with
  | Some v => negb (String.eqb v "")
  | None => false
  end.

End Js.
Export Js.

(** ** Data model (@hapi/protocol/types) *)

Module Protocol.

(** The fields of the metadata blob that the engine reads.  [None] stands
    for a field that is absent or not a string. *)
Record Metadata := {
  path : option string;
  flavor : option string;
  claudeSessionId : option string;
  codexSessionId : option string;
  geminiSessionId : option string;
  opencodeSessionId : option string;
  name : option string
}.

Record Session := {
  id : string;
  namespace : string;
  active : bool;
  lastActiveAt : Z;
  metadata : option Metadata;
  metadataVersion : Z;
  thinking : bool
}.

Inductive SentFrom := TelegramBot | Webapp.

Record AttachmentMetadata := {
  att_id : string;
  att_filename : string;
  att_mimeType : string;
  att_size : Z;
  att_path : string
}.

(** Message content: what [sendMessage] builds, or a blob produced by the
    agent. *)
Inductive Content :=
| UserText (text : string) (attachments : option (list AttachmentMetadata))
           (sentFrom : SentFrom)
| AgentBlob (raw : string).

Record DecryptedMessage := {
  msg_id : string;
  msg_seq : Z;
  msg_localId : option string;
  msg_content : Content;
  msg_createdAt : Z
}.

Inductive SyncEventBody :=
| SessionUpdated (sessionId : string)
| MessageReceived (sessionId : string) (message : DecryptedMessage)
| Toast (title : string)
| ConnectionChanged.

(** Every variant may carry an explicit [namespace]. *)
Record SyncEvent := {
  ev_namespace : option string;
  ev_body : SyncEventBody
}.

(** ['sessionId' in event] together with [event.sessionId]. *)
Definition ev_sessionId (e : SyncEvent) : option string :=
  match ev_body e with
  | SessionUpdated sid => Some sid
  | MessageReceived sid _ => Some sid
  | Toast _ => None
  | ConnectionChanged => None
  end.

End Protocol.
Export Protocol.

(** ** The store boundary (store/index.ts) *)

Module Store.

Record StoredMessage := {
  row_sessionId : string;
  row_id : string;
  row_seq : Z;
  row_localId : option string;
  row_content : Content;
  row_createdAt : Z
}.

Record t := {
  sessions : gmap string Session;
  messages : list StoredMessage
}.

Inductive UpdateResult :=
| UpdSuccess (version : Z) (value : option Metadata)
| UpdVersionMismatch (version : Z) (value : option Metadata)
| UpdError.

(** Modelled from the spec: [store.sessions.getSession] is not among the
    sources; the store is a durable table of sessions keyed by id. *)
Definition getSession (st : t) (sid : string) : option Session :=
  sessions st !! sid.

Definition withMetadata (s : Session) (m : option Metadata) : Session :=
  {| id := id s; namespace := namespace s; active := active s;
     lastActiveAt := lastActiveAt s; metadata := m;
     metadataVersion := (metadataVersion s + 1)%Z; thinking := thinking s |}.

(** Modelled from the spec: [store.sessions.updateSessionMetadata] is not
    among the sources.  If the expected version is omitted, write
    unconditionally and bump the version; if it is provided and matches the
    current version, apply and bump; if it does not match, answer
    version-mismatch with the current version and value, without applying.
    A session that is absent, or that lives in another namespace, is an
    error. *)
Definition updateSessionMetadata (st : t) (sid : string)
    (m : option Metadata) (expectedVersion : option Z) (ns : string)
    : UpdateResult * t :=
  match sessions st !! sid with
  | None => (UpdError, st)
  | Some s =>
      if negb (String.eqb (namespace s) ns) then (UpdError, st)
      else
        let apply :=
          (UpdSuccess (metadataVersion s + 1)%Z m,
           {| sessions := <[sid := withMetadata s m]> (sessions st);
              messages := messages st |}) in
        match expectedVersion with
        | None => apply
        | Some v =>
            if (v =? metadataVersion s)%Z then apply
            else (UpdVersionMismatch (metadataVersion s) (metadata s), st)
        end
  end.

(** The rows of one session, in ledger order. *)
Definition rowsOf (st : t) (sid : string) : list StoredMessage :=
  filter (fun r => row_sessionId r = sid) (messages st).

Definition olderThan (beforeSeq : option Z) (rows : list StoredMessage)
    : list StoredMessage :=
  match beforeSeq with
  | Some b => filter (fun r => (row_seq r < b)%Z) rows
  | None => rows
  end.

(** The [n] most recent elements of a ledger, oldest first. *)
Definition lastn {A} (n : nat) (l : list A) : list A :=
  drop (length l - n) l.

(** Modelled from the spec: [store.messages.getMessages] is not among the
    sources.  It returns up to [limit] messages with [seq < beforeSeq] (the
    most recent [limit] when [beforeSeq] is omitted), in the store's
    natural order.  [limit] is a count. *)
Definition getMessages (st : t) (sid : string) (limit : nat)
    (beforeSeq : option Z) : list StoredMessage :=
  lastn limit (olderThan beforeSeq (rowsOf st sid)).

Definition nextSeq (rows : list StoredMessage) : Z :=
  (1 + foldr (fun r acc => Z.max (row_seq r) acc) 0 rows)%Z.

(** Modelled from the spec: [store.messages.addMessage] is not among the
    sources.  It allocates the next sequence number of the session and
    appends, as one atomic step.  The fresh message id and the clock are
    passed in. *)
Definition addMessage (st : t) (sid : string) (content : Content)
    (localId : option string) (freshId : string) (now : Z)
    : StoredMessage * t :=
  let row := {| row_sessionId := sid; row_id := freshId;
                row_seq := nextSeq (rowsOf st sid);
                row_localId := localId; row_content := content;
                row_createdAt := now |} in
  (row, {| sessions := sessions st; messages := messages st ++ [row] |}).

(** Sequence numbers of a session grow strictly along the ledger. *)
Fixpoint ascending (rows : list StoredMessage) : Prop :=
  match rows with
  | [] => True
  | r :: rest => Forall (fun r' => (row_seq r < row_seq r')%Z) rest
                 /\ ascending rest
  end.

End Store.

(** ** The session cache (sync/sessionCache.ts) *)

Module SessionCache.

Record t := {
  cached : gmap string Session;
  store : Store.t
}.

Inductive AccessFailure := NotFound | AccessDenied.

Inductive Access :=
| AccessOk (sessionId : string) (session : Session)
| AccessFail (reason : AccessFailure).

(** Modelled from the spec: [SessionCache.getSession] is not among the
    sources; it is the cache lookup. *)
Definition getSession (c : t) (sid : string) : option Session :=
  cached c !! sid.

(** Modelled from the spec: [SessionCache.refreshSession] is not among the
    sources; it re-reads the store and returns [undefined] when the store
    has no such session. *)
Definition refreshSession (c : t) (sid : string) : option Session * t :=
  match Store.getSession (store c) sid with
  | Some s => (Some s, {| cached := <[sid := s]> (cached c); store := store c |})
  | None => (None, c)
  end.

(** Cache lookup, falling back to a store re-read on a miss. *)
Definition lookup (c : t) (sid : string) : option Session * t :=
  match getSession c sid with
  | Some s => (Some s, c)
  | None => refreshSession c sid
  end.

(** Modelled from the spec: [SessionCache.resolveSessionAccess] is not
    among the sources.  It answers [{ok:true, sessionId, session}] when the
    session exists in the namespace, ['not-found'] when no session with
    that id exists anywhere, and ['access-denied'] when it exists in a
    different namespace. *)
Definition resolveSessionAccess (c : t) (sid ns : string) : Access * t :=
  match lookup c sid with
  | (Some s, c') =>
      if String.eqb (namespace s) ns then (AccessOk sid s, c')
      else (AccessFail AccessDenied, c')
  | (None, c') => (AccessFail NotFound, c')
  end.

(** The session carried by an access result, if any. *)
Definition exposed (a : Access) : option Session :=
  match a with
  | AccessOk _ s => Some s
  | AccessFail _ => None
  end.

End SessionCache.

(** ** The event publisher (sync/eventPublisher.ts) *)

Module EventPublisher.

(** One invocation of a subscriber. *)
Record Delivery := {
  dl_listener : nat;
  dl_namespace : string;
  dl_event : SyncEvent
}.

(** Modelled from the spec: [EventPublisher.emit] is not among the
    sources.  It resolves the namespace of the event and invokes every
    subscriber with it, each call isolated from the others; an event whose
    namespace cannot be resolved is dropped. *)
Definition emit (listeners : list nat) (resolved : option string)
    (e : SyncEvent) : list Delivery :=
  match resolved with
  | Some ns =>
      map (fun l => {| dl_listener := l; dl_namespace := ns; dl_event := e |})
          listeners
  | None => []
  end.

End EventPublisher.

(** ** The in-process transport (cli/src/api/LocalTransport.ts) *)

Module LocalTransport.

(** The ['update'] push built by [MessageService.sendMessage]; its body is
    [{t: 'new-message', sid, message}]. *)
Record Update := {
  upd_id : string;
  upd_seq : Z;
  upd_createdAt : Z;
  upd_sid : string;
  upd_message : DecryptedMessage
}.

(** A listener is a JavaScript function: it returns or it throws. *)
Definition Listener := Update -> Completion unit.

(** The [inbound] emitter: listeners by event name, in registration
    order.  ([outbound] carries the handlers of the agent manager, which
    are embedded as functions below.) *)
Record t := {
  inbound : list (string * Listener)
}.

(** [EventEmitter.emit]: the listeners of the event are called in order,
    synchronously; an exception of a listener leaves [emit] at once. *)
Fixpoint emitter_emit (ls : list (string * Listener)) (event : string)
    (u : Update) : Completion unit :=
  match ls with
  | [] => Normal tt
  | (name, h) :: rest =>
      if String.eqb name event then
        match h u with
        | Normal _ => emitter_emit rest event u
        | Throw e => Throw e
        end
      else emitter_emit rest event u
  end.

(** [send(event, ...args) { this.inbound.emit(event, ...args) }] *)
Definition send (tr : t) (event : string) (u : Update) : Completion unit :=
  emitter_emit (inbound tr) event u.

End LocalTransport.

(** ** The agent manager (agent/agentManager.ts) *)

Module AgentManager.

Inductive Agent := Claude | Codex | Gemini | Opencode.

Record SpawnOptions := {
  directory : string;
  agent : Agent;
  model : option string;
  yolo : option bool;
  resumeSessionId : option string
}.

Inductive SpawnResult :=
| SpawnSuccess (sessionId : string)
| SpawnError (message : string).

(** What [spawnSession] hands to [bootstrapSession], besides the constants
    [startedBy: 'terminal'], [agentState] and [machineId: 'local'] and the
    new transport. *)
Record BootstrapOptions := {
  bo_flavor : Agent;
  bo_workingDirectory : string
}.

(** [bootstrapSession] belongs to the agent package: it answers the id of
    the new session and leaves its listeners on the transport, or throws. *)
Definition Bootstrap :=
  BootstrapOptions -> Completion (string * LocalTransport.t).

(** [private sessions = new Map<string, SessionHandle>()] *)
Record t := {
  sessions : gmap string LocalTransport.t
}.

(** [error instanceof Error ? error.message : String(error)] *)
Definition errorMessage (e : Thrown) : string :=
  match e with
  | ErrorObject m => m
  | OtherValue shown => shown
  end.

Definition spawnSession (bootstrapSession : Bootstrap) (am : t)
    (opts : SpawnOptions) : SpawnResult * t :=
  match bootstrapSession {| bo_flavor := agent opts;
                            bo_workingDirectory := directory opts |} with
  | Normal (sessionId, transport) =>
      (SpawnSuccess sessionId,
       {| sessions := <[sessionId := transport]> (sessions am) |})
  | Throw e => (SpawnError (errorMessage e), am)
  end.

(** [this.sessions.get(sessionId)?.transport.send(event, ...args)] *)
Definition sendToSession (am : t) (sessionId event : string)
    (u : LocalTransport.Update) : Completion unit :=
  match sessions am !! sessionId with
  | Some transport => LocalTransport.send transport event u
  | None => Normal tt
  end.

(** The argument of the ['update-metadata'] handler.  [md_sid] is [None]
    when [typeof data?.sid !== 'string']. *)
Record MetadataUpdate := {
  md_sid : option string;
  md_metadata : option Metadata;
  md_expectedVersion : option Z
}.

(** What the handler passes to its acknowledgement callback. *)
Inductive Reply :=
| ReplySuccess (version : Z) (metadata : option Metadata)
| ReplyVersionMismatch (version : Z) (metadata : option Metadata)
| ReplyError.

(** The ['update-metadata'] handler of [setupHandlers]: the reply, the
    store afterwards and the events passed to [onWebappEvent]. *)
Definition onUpdateMetadata (st : Store.t) (data : MetadataUpdate)
    : Reply * Store.t * list SyncEvent :=
  match md_sid data with
  | None => (ReplyError, st, [])
  | Some sid =>
      match Store.getSession st sid with
      | None => (ReplyError, st, [])
      | Some stored =>
          match Store.updateSessionMetadata st sid (md_metadata data)
                  (md_expectedVersion data) (namespace stored) with
          | (Store.UpdSuccess v value, st') =>
              (ReplySuccess v value, st',
               [ {| ev_namespace := None; ev_body := SessionUpdated sid |} ])
          | (Store.UpdVersionMismatch v value, st') =>
              (ReplyVersionMismatch v value, st', [])
          | (Store.UpdError, st') => (ReplyError, st', [])
          end
      end
  end.

End AgentManager.

(** ** The message service (sync/messageService.ts) *)

Module MessageService.

Record PageInfo := {
  pg_limit : nat;
  pg_beforeSeq : option Z;
  nextBeforeSeq : option Z;
  hasMore : bool
}.

Record MessagesPage := {
  messages : list DecryptedMessage;
  page : PageInfo
}.

(** [(m) => ({ id: m.id, seq: m.seq, localId: m.localId, content:
    m.content, createdAt: m.createdAt })] *)
Definition toMessage (m : Store.StoredMessage) : DecryptedMessage :=
  {| msg_id := Store.row_id m; msg_seq := Store.row_seq m;
     msg_localId := Store.row_localId m; msg_content := Store.row_content m;
     msg_createdAt := Store.row_createdAt m |}.

(** One turn of the [for (const m of messages)] loop; [typeof m.seq ===
    'number'] holds of every message, [seq] being an integer here. *)
Definition oldestStep (oldestSeq : option Z) (m : DecryptedMessage)
    : option Z :=
  match oldestSeq with
  | None => Some (msg_seq m)
  | Some o => if (msg_seq m <? o)%Z then Some (msg_seq m) else Some o
  end.

Definition getMessagesPage (st : Store.t) (sessionId : string)
    (limit : nat) (beforeSeq : option Z) : MessagesPage :=
  let stored := Store.getMessages st sessionId limit beforeSeq in
  let messages := map toMessage stored in
  let oldestSeq := fold_left oldestStep messages None in
  let nextBeforeSeq := oldestSeq in
  let hasMore :=
    match nextBeforeSeq with
    | Some n =>
        (0 <? length (Store.getMessages st sessionId 1 (Some n)))%nat
    | None => false
    end in
  {| messages := messages;
     page := {| pg_limit := limit; pg_beforeSeq := beforeSeq;
                nextBeforeSeq := nextBeforeSeq; hasMore := hasMore |} |}.

Record Payload := {
  text : string;
  localId : option string;
  attachments : option (list AttachmentMetadata);
  sentFrom : option SentFrom
}.

(** What a call leaves behind: how the promise settles, the store, and the
    events handed to [publisher.emit]. *)
Record Sent := {
  settled : Completion unit;
  stored : Store.t;
  published : list SyncEvent
}.

(** The [update] object of [sendMessage]:
    [{ id, seq, createdAt, body: { t: 'new-message', sid, message } }]. *)
Definition newMessageUpdate (sessionId : string) (msg : Store.StoredMessage)
    : LocalTransport.Update :=
  {| LocalTransport.upd_id := Store.row_id msg;
     LocalTransport.upd_seq := Store.row_seq msg;
     LocalTransport.upd_createdAt := Store.row_createdAt msg;
     LocalTransport.upd_sid := sessionId;
     LocalTransport.upd_message := toMessage msg |}.

Definition sendMessage
    (sendToSession : string -> string -> LocalTransport.Update -> Completion unit)
    (st : Store.t) (sessionId : string) (payload : Payload)
    (freshId : string) (now : Z) : Sent :=
  let sentFrom := default Webapp (sentFrom payload) in
  let content := UserText (text payload) (attachments payload) sentFrom in
  let '(msg, st') :=
    Store.addMessage st sessionId content (localId payload) freshId now in
  let update := newMessageUpdate sessionId msg in
  match sendToSession sessionId "update" update with
  | Throw e => {| settled := Throw e; stored := st'; published := [] |}
  | Normal _ =>
      {| settled := Normal tt; stored := st';
         published :=
           [ {| ev_namespace := None;
                ev_body := MessageReceived sessionId (toMessage msg) |} ] |}
  end.

End MessageService.

(** ** The sync engine (sync/syncEngine.ts) *)

Module SyncEngine.

Import AgentManager.

Inductive ResumeCode :=
| session_not_found
| access_denied
| no_machine_online
| resume_unavailable
| resume_failed.

Inductive ResumeSessionResult :=
| ResumeSuccess (sessionId : string)
| ResumeError (message : string) (code : ResumeCode).

(** The collaborators of a resume that lie outside the engine: the agent
    package behind [agentManager.spawnSession], the session cache as each
    poll of the wait loop finds it (heartbeats arrive between two polls),
    by how much each 250 ms timer fires late, and
    [sessionCache.mergeSessions], which returns or throws. *)
Record Env := {
  bootstrapSession : Bootstrap;
  timeline : nat -> SessionCache.t;
  lateness : nat -> N;
  mergeSessions : string -> string -> string -> Completion unit
}.

(** [this.sessionCache.getSession(sessionId) ??
     this.sessionCache.refreshSession(sessionId) ?? undefined] *)
Definition getSession (c : SessionCache.t) (sessionId : string)
    : option Session * SessionCache.t :=
  match SessionCache.getSession c sessionId with
  | Some s => (Some s, c)
  | None => SessionCache.refreshSession c sessionId
  end.

Definition resolveNamespace (c : SessionCache.t) (event : SyncEvent)
    : option string * SessionCache.t :=
  if truthy (ev_namespace event) then (ev_namespace event, c)
  else
    match ev_sessionId event with
    | Some sessionId =>
        let '(s, c') := getSession c sessionId in (namespace <$> s, c')
    | None => (None, c)
    end.

(** The publisher as the constructor wires it:
    [new EventPublisher(sseManager, (event) => this.resolveNamespace(event))]. *)
Definition emit (listeners : list nat) (c : SessionCache.t)
    (event : SyncEvent) : list EventPublisher.Delivery * SessionCache.t :=
  let '(ns, c') := resolveNamespace c event in
  (EventPublisher.emit listeners ns event, c').

(** The message service as the constructor wires it, with
    [agentManager.sendToSession] as its push. *)
Definition sendMessage (am : AgentManager.t) (st : Store.t)
    (sessionId : string) (payload : MessageService.Payload)
    (freshId : string) (now : Z) : MessageService.Sent :=
  MessageService.sendMessage (sendToSession am) st sessionId payload
    freshId now.

Inductive SessionType := Simple | Worktree.

(** [agent] defaults to ['claude'] when the caller leaves it out. *)
Definition spawnSession (bs : Bootstrap) (am : AgentManager.t)
    (machineId directory : string) (agent : option Agent)
    (model : option string) (yolo : option bool)
    (sessionType : option SessionType) (worktreeName : option string)
    (resumeSessionId : option string) : SpawnResult * AgentManager.t :=
  AgentManager.spawnSession bs am
    {| directory := directory; agent := default Claude agent;
       model := model; yolo := yolo; resumeSessionId := resumeSessionId |}.

(** [this.getSession(sessionId)?.active] at the [k]-th poll. *)
Definition observeActive (env : Env) (sessionId : string) (k : nat) : bool :=
  match getSession (timeline env k) sessionId with
  | (Some s, _) => active s
  | (None, _) => false
  end.

Record Waited := {
  becameActive : bool;   (* the value returned *)
  polls : nat;           (* how many times the session was looked up *)
  finishedAt : Z         (* the clock when the loop was left *)
}.

(** The [while] loop of [waitForSessionActive]; [now] is the clock on entry
    to the loop test and [k] counts the polls made so far.  The timer
    advances the clock by 250 ms and its lateness. *)
Equations waitLoop (env : Env) (sessionId : string) (start timeoutMs : Z)
    (k : nat) (now : Z) : Waited
  by wf (Z.to_nat (timeoutMs - (now - start))) lt :=
  waitLoop env sessionId start timeoutMs k now
    with decide (now - start < timeoutMs)%Z := {
    | left _ =>
        if observeActive env sessionId k
        then {| becameActive := true; polls := S k; finishedAt := now |}
        else waitLoop env sessionId start timeoutMs (S k)
               (now + 250 + Z.of_N (lateness env k))
    | right _ =>
        {| becameActive := false; polls := k; finishedAt := now |} }.
Next Obligation. lia. Qed.

Definition defaultTimeoutMs : Z := 15000.

(** [const start = Date.now()] followed by the loop. *)
Definition waitForSessionActive (env : Env) (sessionId : string)
    (timeoutMs : Z) (start : Z) : Waited :=
  waitLoop env sessionId start timeoutMs 0 start.

(** The calls a resume makes to its collaborators, in order. *)
Inductive Call :=
| CallSpawn (opts : SpawnOptions)
| CallWait (sessionId : string)
| CallMerge (oldId newId ns : string).

Record Resumed := {
  result : ResumeSessionResult;
  calls : list Call
}.

(** [metadata.flavor === 'codex' || ... ? metadata.flavor : 'claude'] *)
Definition flavorOf (md : Metadata) : Agent :=
  match flavor md with
  | Some "codex" => Codex
  | Some "gemini" => Gemini
  | Some "opencode" => Opencode
  | _ => Claude
  end.

Definition resumeTokenOf (md : Metadata) : option string :=
  match flavorOf md with
  | Codex => codexSessionId md
  | Gemini => geminiSessionId md
  | Opencode => opencodeSessionId md
  | Claude => claudeSessionId md
  end.

(** [error instanceof Error ? error.message : 'Failed to merge resumed
    session'] *)
Definition mergeMessage (e : Thrown) : string :=
  match e with
  | ErrorObject m => m
  | OtherValue _ => "Failed to merge resumed session"
  end.

Definition resumeSession (env : Env) (c : SessionCache.t)
    (am : AgentManager.t) (sessionId ns : string) (now : Z) : Resumed :=
  match fst (SessionCache.resolveSessionAccess c sessionId ns) with
  | SessionCache.AccessFail reason =>
      match reason with
      | SessionCache.AccessDenied =>
          {| result := ResumeError "Session access denied" access_denied;
             calls := [] |}
      | SessionCache.NotFound =>
          {| result := ResumeError "Session not found" session_not_found;
             calls := [] |}
      end
  | SessionCache.AccessOk accessId session =>
      if active session
      then {| result := ResumeSuccess accessId; calls := [] |}
      else
        let missingPath :=
          {| result := ResumeError "Session metadata missing path"
                         resume_unavailable;
             calls := [] |} in
        match metadata session with
        | None => missingPath
        | Some md =>
        match path md with
        | None => missingPath
        | Some dir =>
            let flavor := flavorOf md in
            let resumeToken := resumeTokenOf md in
            if negb (truthy resumeToken)
            then {| result := ResumeError "Resume session ID unavailable"
                                resume_unavailable;
                    calls := [] |}
            else
              let opts := {| directory := dir; agent := flavor;
                             model := None; yolo := None;
                             resumeSessionId := resumeToken |} in
              match fst (AgentManager.spawnSession (bootstrapSession env)
                           am opts) with
              | SpawnError message =>
                  {| result := ResumeError message resume_failed;
                     calls := [CallSpawn opts] |}
              | SpawnSuccess newId =>
                  if negb (becameActive
                             (waitForSessionActive env newId
                                defaultTimeoutMs now))
                  then {| result := ResumeError
                                      "Session failed to become active"
                                      resume_failed;
                          calls := [CallSpawn opts; CallWait newId] |}
                  else if negb (String.eqb newId accessId)
                  then
                    match mergeSessions env accessId newId ns with
                    | Throw e =>
                        {| result := ResumeError (mergeMessage e)
                                       resume_failed;
                           calls := [CallSpawn opts; CallWait newId;
                                     CallMerge accessId newId ns] |}
                    | Normal _ =>
                        {| result := ResumeSuccess newId;
                           calls := [CallSpawn opts; CallWait newId;
                                     CallMerge accessId newId ns] |}
                    end
                  else {| result := ResumeSuccess newId;
                          calls := [CallSpawn opts; CallWait newId] |}
              end
        end
        end
  end.

End SyncEngine.

(** ** Route guards and routes (web/routes) *)

Module Routes.

Import AgentManager.

(** [c.json({ error }, status)] *)
Record Response := {
  status : Z;
  error : string
}.

(** guards.ts, [requireSession]; [namespace] is [c.get('namespace')] and
    [requireActive] is [options?.requireActive]. *)
Definition requireSession (namespace : string) (engine : SessionCache.t)
    (sessionId : string) (requireActive : bool)
    : Response + string * Session :=
  match fst (SessionCache.resolveSessionAccess engine sessionId namespace) with
  | SessionCache.AccessFail reason =>
      let status :=
        match reason with
        | SessionCache.AccessDenied => 403%Z
        | SessionCache.NotFound => 404%Z
        end in
      let error :=
        match reason with
        | SessionCache.AccessDenied => "Session access denied"
        | SessionCache.NotFound => "Session not found"
        end in
      inl {| status := status; error := error |}
  | SessionCache.AccessOk accessId session =>
      if requireActive && negb (active session)
      then inl {| status := 409; error := "Session is inactive" |}
      else inr (accessId, session)
  end.

Inductive Resolved :=
| ResolvedOk (session : Session) (sessionId : string)
| ResolvedFail (status : Z) (error : string).

(** cli.ts, [resolveSessionForNamespace]. *)
Definition resolveSessionForNamespace (engine : SessionCache.t)
    (sessionId namespace : string) : Resolved :=
  match fst (SessionCache.resolveSessionAccess engine sessionId namespace) with
  | SessionCache.AccessOk accessId session => ResolvedOk session accessId
  | SessionCache.AccessFail reason =>
      ResolvedFail
        (match reason with
         | SessionCache.AccessDenied => 403%Z
         | SessionCache.NotFound => 404%Z
         end)
        (match reason with
         | SessionCache.AccessDenied => "Session access denied"
         | SessionCache.NotFound => "Session not found"
         end)
  end.

(** machines.ts, the body accepted by [spawnBodySchema]. *)
Record SpawnBody := {
  b_directory : string;
  b_agent : option Agent;
  b_model : option string;
  b_yolo : option bool;
  b_sessionType : option SyncEngine.SessionType;
  b_worktreeName : option string
}.

(** [directory: z.string().min(1)]; the other fields are optional and
    typed by the record. *)
Definition spawnBodySchema (body : SpawnBody) : bool :=
  negb (String.eqb (b_directory body) "").

Inductive SpawnReply :=
| SpawnJson (result : SpawnResult)
| SpawnRefused (response : Response).

(** machines.ts, [POST /machines/:id/spawn].  [engine] is [None] when
    [getSyncEngine()] is null, [body] is [None] when the request carries no
    JSON; [machineParam] is the [:id] of the path. *)
Definition postSpawn (bs : Bootstrap) (engine : option AgentManager.t)
    (machineParam : string) (body : option SpawnBody)
    : SpawnReply * option AgentManager.t :=
  match engine with
  | None => (SpawnRefused {| status := 503; error := "Not connected" |}, None)
  | Some am =>
      match body with
      | None =>
          (SpawnRefused {| status := 400; error := "Invalid body" |}, Some am)
      | Some parsed =>
          if negb (spawnBodySchema parsed)
          then (SpawnRefused {| status := 400; error := "Invalid body" |},
                Some am)
          else
            let '(result, am') :=
              SyncEngine.spawnSession bs am "local" (b_directory parsed)
                (b_agent parsed) (b_model parsed) (b_yolo parsed)
                (b_sessionType parsed) (b_worktreeName parsed) None in
            (SpawnJson result, Some am')
      end
  end.

End Routes.

(** ** Vocabulary of the properties, and sample states *)

(** The session with id [sid] lives in namespace [ns]: the cache holds it,
    or the cache misses it and the store holds it. *)
Definition belongsTo (c : SessionCache.t) (sid ns : string) : Prop :=
  exists s, namespace s = ns
    /\ (SessionCache.cached c !! sid = Some s
        \/ (SessionCache.cached c !! sid = None
            /\ Store.sessions (SessionCache.store c) !! sid = Some s)).

(** No session with id [sid] exists, in the cache or in the store. *)
Definition existsNowhere (c : SessionCache.t) (sid : string) : Prop :=
  SessionCache.cached c !! sid = None
  /\ Store.sessions (SessionCache.store c) !! sid = None.

Module Sample.

Definition session (sid ns : string) (live : bool) (md : option Metadata)
    : Session :=
  {| id := sid; namespace := ns; active := live; lastActiveAt := 0;
     metadata := md; metadataVersion := 1; thinking := false |}.

Definition repoMetadata : Metadata :=
  {| path := Some "/repo"; flavor := None; claudeSessionId := Some "tok1";
     codexSessionId := None; geminiSessionId := None;
     opencodeSessionId := None; name := None |}.

(** A store with one inactive session [abc] of namespace [beta]; nothing is
    cached yet. *)
Definition store : Store.t :=
  {| Store.sessions := {[ "abc" := session "abc" "beta" false (Some repoMetadata) ]};
     Store.messages := [] |}.

Definition cache : SessionCache.t :=
  {| SessionCache.cached := ∅; SessionCache.store := store |}.

End Sample.

(** The clock, counted from [start], at the [k]-th test of the wait loop:
    each turn adds the 250 ms of the timer and its lateness. *)
Fixpoint elapsedAt (env : SyncEngine.Env) (k : nat) : Z :=
  match k with
  | O => 0
  | S j => elapsedAt env j + 250 + Z.of_N (SyncEngine.lateness env j)
  end.

(** What a finished wait must satisfy: a [true] comes from the first poll
    that saw the session active, made within the bound; a [false] comes
    after polls that all saw it inactive, once the bound is reached. *)
Definition waitedRight (env : SyncEngine.Env) (sessionId : string)
    (start timeoutMs : Z) (r : SyncEngine.Waited) : Prop :=
  if SyncEngine.becameActive r then
    exists k, SyncEngine.polls r = S k
      /\ SyncEngine.observeActive env sessionId k = true
      /\ (forall j, (j < k)%nat ->
            SyncEngine.observeActive env sessionId j = false)
      /\ (elapsedAt env k < timeoutMs)%Z
      /\ SyncEngine.finishedAt r = (start + elapsedAt env k)%Z
  else
    (forall j, (j < SyncEngine.polls r)%nat ->
       SyncEngine.observeActive env sessionId j = false
       /\ (elapsedAt env j < timeoutMs)%Z)
    /\ (timeoutMs <= elapsedAt env (SyncEngine.polls r))%Z
    /\ SyncEngine.finishedAt r
       = (start + elapsedAt env (SyncEngine.polls r))%Z.

Module SampleEnv.

(** Nothing changes while the engine waits and every timer is punctual; the
    agent package refuses to start, a merge would succeed. *)
Definition frozen : SyncEngine.Env :=
  {| SyncEngine.bootstrapSession := fun _ => Throw (ErrorObject "spawn failed");
     SyncEngine.timeline := fun _ => Sample.cache;
     SyncEngine.lateness := fun _ => 0%N;
     SyncEngine.mergeSessions := fun _ _ _ => Normal tt |}.

(** The cache once the heartbeat of the new session [xyz] has arrived. *)
Definition cacheWithXyz : SessionCache.t :=
  {| SessionCache.cached :=
       {[ "xyz" := Sample.session "xyz" "beta" true (Some Sample.repoMetadata) ]};
     SessionCache.store := Sample.store |}.

(** The agent package starts session [xyz]; its heartbeat is seen from the
    fourth poll on, and every timer fires 7 ms late. *)
Definition resuming : SyncEngine.Env :=
  {| SyncEngine.bootstrapSession :=
       fun _ => Normal ("xyz", {| LocalTransport.inbound := [] |});
     SyncEngine.timeline :=
       fun k => if (k <? 3)%nat then Sample.cache else cacheWithXyz;
     SyncEngine.lateness := fun _ => 7%N;
     SyncEngine.mergeSessions := fun _ _ _ => Normal tt |}.

Definition noAgents : AgentManager.t := {| AgentManager.sessions := ∅ |}.

End SampleEnv.

(** The code of an error result. *)
Definition errorCode (r : SyncEngine.ResumeSessionResult)
    : option SyncEngine.ResumeCode :=
  match r with
  | SyncEngine.ResumeError _ code => Some code
  | SyncEngine.ResumeSuccess _ => None
  end.

(** What a resume asks of the agent manager: a process of the flavor of the
    session, in its directory, bound to its resume token. *)
Definition resumeOptions (md : Metadata) (dir : string)
    : AgentManager.SpawnOptions :=
  {| AgentManager.directory := dir;
     AgentManager.agent := SyncEngine.flavorOf md;
     AgentManager.model := None; AgentManager.yolo := None;
     AgentManager.resumeSessionId := SyncEngine.resumeTokenOf md |}.

(** The paths through [resumeSession], each with the conditions under which
    it is taken and what it leaves behind. *)
Section ResumePaths.

Variables (env : SyncEngine.Env) (c : SessionCache.t) (am : AgentManager.t).
Variables (sessionId ns : string) (now : Z).

Let access := fst (SessionCache.resolveSessionAccess c sessionId ns).
Let spawned opts :=
  fst (AgentManager.spawnSession (SyncEngine.bootstrapSession env) am opts).
Let waited newId :=
  SyncEngine.becameActive
    (SyncEngine.waitForSessionActive env newId SyncEngine.defaultTimeoutMs now).

Inductive ResumePath : SyncEngine.Resumed -> Prop :=
| path_denied :
    access = SessionCache.AccessFail SessionCache.AccessDenied ->
    ResumePath
      {| SyncEngine.result :=
           SyncEngine.ResumeError "Session access denied" SyncEngine.access_denied;
         SyncEngine.calls := [] |}
| path_not_found :
    access = SessionCache.AccessFail SessionCache.NotFound ->
    ResumePath
      {| SyncEngine.result :=
           SyncEngine.ResumeError "Session not found" SyncEngine.session_not_found;
         SyncEngine.calls := [] |}
| path_active s :
    access = SessionCache.AccessOk sessionId s -> active s = true ->
    ResumePath
      {| SyncEngine.result := SyncEngine.ResumeSuccess sessionId;
         SyncEngine.calls := [] |}
| path_no_path s :
    access = SessionCache.AccessOk sessionId s -> active s = false ->
    metadata s ≫= path = None ->
    ResumePath
      {| SyncEngine.result :=
           SyncEngine.ResumeError "Session metadata missing path"
             SyncEngine.resume_unavailable;
         SyncEngine.calls := [] |}
| path_no_token s md dir :
    access = SessionCache.AccessOk sessionId s -> active s = false ->
    metadata s = Some md -> path md = Some dir ->
    truthy (SyncEngine.resumeTokenOf md) = false ->
    ResumePath
      {| SyncEngine.result :=
           SyncEngine.ResumeError "Resume session ID unavailable"
             SyncEngine.resume_unavailable;
         SyncEngine.calls := [] |}
| path_spawn_error s md dir message :
    access = SessionCache.AccessOk sessionId s -> active s = false ->
    metadata s = Some md -> path md = Some dir ->
    truthy (SyncEngine.resumeTokenOf md) = true ->
    spawned (resumeOptions md dir) = AgentManager.SpawnError message ->
    ResumePath
      {| SyncEngine.result :=
           SyncEngine.ResumeError message SyncEngine.resume_failed;
         SyncEngine.calls := [SyncEngine.CallSpawn (resumeOptions md dir)] |}
| path_timeout s md dir newId :
    access = SessionCache.AccessOk sessionId s -> active s = false ->
    metadata s = Some md -> path md = Some dir ->
    truthy (SyncEngine.resumeTokenOf md) = true ->
    spawned (resumeOptions md dir) = AgentManager.SpawnSuccess newId ->
    waited newId = false ->
    ResumePath
      {| SyncEngine.result :=
           SyncEngine.ResumeError "Session failed to become active"
             SyncEngine.resume_failed;
         SyncEngine.calls := [SyncEngine.CallSpawn (resumeOptions md dir);
                              SyncEngine.CallWait newId] |}
| path_same_id s md dir :
    access = SessionCache.AccessOk sessionId s -> active s = false ->
    metadata s = Some md -> path md = Some dir ->
    truthy (SyncEngine.resumeTokenOf md) = true ->
    spawned (resumeOptions md dir) = AgentManager.SpawnSuccess sessionId ->
    waited sessionId = true ->
    ResumePath
      {| SyncEngine.result := SyncEngine.ResumeSuccess sessionId;
         SyncEngine.calls := [SyncEngine.CallSpawn (resumeOptions md dir);
                              SyncEngine.CallWait sessionId] |}
| path_merge_throws s md dir newId e :
    access = SessionCache.AccessOk sessionId s -> active s = false ->
    metadata s = Some md -> path md = Some dir ->
    truthy (SyncEngine.resumeTokenOf md) = true ->
    spawned (resumeOptions md dir) = AgentManager.SpawnSuccess newId ->
    waited newId = true -> newId <> sessionId ->
    SyncEngine.mergeSessions env sessionId newId ns = Throw e ->
    ResumePath
      {| SyncEngine.result :=
           SyncEngine.ResumeError (SyncEngine.mergeMessage e)
             SyncEngine.resume_failed;
         SyncEngine.calls := [SyncEngine.CallSpawn (resumeOptions md dir);
                              SyncEngine.CallWait newId;
                              SyncEngine.CallMerge sessionId newId ns] |}
| path_merged s md dir newId :
    access = SessionCache.AccessOk sessionId s -> active s = false ->
    metadata s = Some md -> path md = Some dir ->
    truthy (SyncEngine.resumeTokenOf md) = true ->
    spawned (resumeOptions md dir) = AgentManager.SpawnSuccess newId ->
    waited newId = true -> newId <> sessionId ->
    SyncEngine.mergeSessions env sessionId newId ns = Normal tt ->
    ResumePath
      {| SyncEngine.result := SyncEngine.ResumeSuccess newId;
         SyncEngine.calls := [SyncEngine.CallSpawn (resumeOptions md dir);
                              SyncEngine.CallWait newId;
                              SyncEngine.CallMerge sessionId newId ns] |}.

End ResumePaths.

(** The event carries no usable namespace of its own: the field is absent
    or the empty string. *)
Definition noExplicitNamespace (e : SyncEvent) : Prop :=
  ev_namespace e = None \/ ev_namespace e = Some "".

Module SampleEvents.

(** A 'session-updated' event for session [abc] (namespace [beta]) whose
    explicit namespace is the empty string. *)
Definition emptyNamespace : SyncEvent :=
  {| ev_namespace := Some ""; ev_body := SessionUpdated "abc" |}.

Definition scoped : SyncEvent :=
  {| ev_namespace := Some "alpha"; ev_body := SessionUpdated "abc" |}.

Definition bySession : SyncEvent :=
  {| ev_namespace := None; ev_body := SessionUpdated "abc" |}.

Definition unscopedToast : SyncEvent :=
  {| ev_namespace := None; ev_body := Toast "hello" |}.

End SampleEvents.

(** A client that reads a whole session: it asks for the newest page, then
    follows [nextBeforeSeq] for as long as [hasMore] holds.  The pages are
    listed in the order they were fetched, newest first; [fuel] bounds the
    number of requests. *)
Fixpoint followPages (fuel : nat) (st : Store.t) (sessionId : string)
    (limit : nat) (beforeSeq : option Z)
    : option (list (list DecryptedMessage)) :=
  match fuel with
  | O => None
  | S fuel' =>
      let p := MessageService.getMessagesPage st sessionId limit beforeSeq in
      if MessageService.hasMore (MessageService.page p)
      then cons (MessageService.messages p)
             <$> followPages fuel' st sessionId limit
                   (MessageService.nextBeforeSeq (MessageService.page p))
      else Some [MessageService.messages p]
  end.

Module SampleLedger.

Definition row (sid : string) (seq : Z) : Store.StoredMessage :=
  {| Store.row_sessionId := sid; Store.row_id := "m";
     Store.row_seq := seq; Store.row_localId := None;
     Store.row_content := AgentBlob "{}"; Store.row_createdAt := seq |}.

(** Five messages of session [abc], interleaved with two of session [zzz]. *)
Definition store : Store.t :=
  {| Store.sessions := Store.sessions Sample.store;
     Store.messages :=
       [row "abc" 1; row "zzz" 1; row "abc" 2; row "abc" 3; row "zzz" 2;
        row "abc" 4; row "abc" 5] |}.

End SampleLedger.

(** The content that [sendMessage] stores for a payload. *)
Definition userContent (payload : MessageService.Payload) : Content :=
  UserText (MessageService.text payload) (MessageService.attachments payload)
    (default Webapp (MessageService.sentFrom payload)).

(** The 'message-received' event for a stored message. *)
Definition messageReceived (sessionId : string) (msg : Store.StoredMessage)
    : SyncEvent :=
  {| ev_namespace := None;
     ev_body := MessageReceived sessionId (MessageService.toMessage msg) |}.

Module SampleAgents.

(** Session [abc] is attached to an agent whose 'update' listener throws. *)
Definition throwing : AgentManager.t :=
  {| AgentManager.sessions :=
       {[ "abc" := {| LocalTransport.inbound :=
                        [("update", fun _ => Throw (ErrorObject "agent gone"))] |} ]} |}.

(** Session [abc] is attached to an agent whose 'update' listener returns. *)
Definition listening : AgentManager.t :=
  {| AgentManager.sessions :=
       {[ "abc" := {| LocalTransport.inbound :=
                        [("update", fun _ => Normal tt)] |} ]} |}.

Definition hello : MessageService.Payload :=
  {| MessageService.text := "hello"; MessageService.localId := Some "l1";
     MessageService.attachments := None; MessageService.sentFrom := None |}.

End SampleAgents.

(** The same spawn body with other [sessionType] and [worktreeName]. *)
Definition withWorktree (body : Routes.SpawnBody)
    (sessionType : option SyncEngine.SessionType)
    (worktreeName : option string) : Routes.SpawnBody :=
  {| Routes.b_directory := Routes.b_directory body;
     Routes.b_agent := Routes.b_agent body;
     Routes.b_model := Routes.b_model body;
     Routes.b_yolo := Routes.b_yolo body;
     Routes.b_sessionType := sessionType;
     Routes.b_worktreeName := worktreeName |}.

(** * Properties *)

(** ** Namespace isolation of session access *)

Lemma eqb_namespace_neq (a b : string) : a <> b -> String.eqb a b = false.
Proof. intros H. by apply String.eqb_neq. Qed.

Lemma lookup_existsNowhere (c : SessionCache.t) (sid : string) :
  existsNowhere c sid -> fst (SessionCache.lookup c sid) = None.
Proof.
  intros [Hc Hs].
  unfold SessionCache.lookup, SessionCache.getSession,
    SessionCache.refreshSession, Store.getSession.
  by rewrite Hc, Hs.
Qed.

Lemma resolve_other_namespace (c : SessionCache.t) (sid nsA nsB : string) :
  belongsTo c sid nsB -> nsB <> nsA ->
  fst (SessionCache.resolveSessionAccess c sid nsA)
  = SessionCache.AccessFail SessionCache.AccessDenied.
Proof.
  intros (s & Hns & Hs) Hne.
  unfold SessionCache.resolveSessionAccess, SessionCache.lookup,
    SessionCache.getSession, SessionCache.refreshSession, Store.getSession.
  destruct Hs as [-> | [-> ->]];
    by rewrite Hns, (eqb_namespace_neq _ _ Hne).
Qed.

Lemma resolve_nowhere (c : SessionCache.t) (sid ns : string) :
  existsNowhere c sid ->
  fst (SessionCache.resolveSessionAccess c sid ns)
  = SessionCache.AccessFail SessionCache.NotFound.
Proof.
  intros H%lookup_existsNowhere. unfold SessionCache.resolveSessionAccess.
  destruct (SessionCache.lookup c sid) as [o c']. simpl in H. by subst o.
Qed.

(** C1.  A session of another namespace is answered with 'access-denied', and
    the answer carries no session; an id that exists nowhere is answered with
    'not-found'; both guards turn the former into 403 and the latter into
    404. *)
Theorem resolveSessionAccess_isolation (c : SessionCache.t) (sid nsA : string) :
  (forall nsB, belongsTo c sid nsB -> nsB <> nsA ->
     fst (SessionCache.resolveSessionAccess c sid nsA)
       = SessionCache.AccessFail SessionCache.AccessDenied
     /\ SessionCache.exposed
          (fst (SessionCache.resolveSessionAccess c sid nsA)) = None
     /\ (forall requireActive,
           Routes.requireSession nsA c sid requireActive
           = inl {| Routes.status := 403;
                    Routes.error := "Session access denied" |})
     /\ Routes.resolveSessionForNamespace c sid nsA
        = Routes.ResolvedFail 403 "Session access denied")
  /\ (existsNowhere c sid ->
     fst (SessionCache.resolveSessionAccess c sid nsA)
       = SessionCache.AccessFail SessionCache.NotFound
     /\ (forall requireActive,
           Routes.requireSession nsA c sid requireActive
           = inl {| Routes.status := 404;
                    Routes.error := "Session not found" |})
     /\ Routes.resolveSessionForNamespace c sid nsA
        = Routes.ResolvedFail 404 "Session not found").
Proof.
  split.
  - intros nsB Hin Hne.
    pose proof (resolve_other_namespace c sid nsA nsB Hin Hne) as E.
    unfold Routes.requireSession, Routes.resolveSessionForNamespace.
    rewrite E. repeat split.
  - intros Hno.
    pose proof (resolve_nowhere c sid nsA Hno) as E.
    unfold Routes.requireSession, Routes.resolveSessionForNamespace.
    rewrite E. repeat split.
Qed.

Lemma resolveSessionAccess_isolation_witness :
  (fst (SessionCache.resolveSessionAccess Sample.cache "abc" "alpha")
     = SessionCache.AccessFail SessionCache.AccessDenied
   /\ Routes.resolveSessionForNamespace Sample.cache "abc" "alpha"
      = Routes.ResolvedFail 403 "Session access denied")
  /\ (fst (SessionCache.resolveSessionAccess Sample.cache "ghost" "alpha")
      = SessionCache.AccessFail SessionCache.NotFound
     /\ Routes.resolveSessionForNamespace Sample.cache "ghost" "alpha"
        = Routes.ResolvedFail 404 "Session not found").
Proof.
  split.
  - destruct (resolveSessionAccess_isolation Sample.cache "abc" "alpha")
      as [H _].
    destruct (H "beta") as (H1 & _ & _ & H4).
    + exists (Sample.session "abc" "beta" false (Some Sample.repoMetadata)).
      split; [reflexivity | right; split; reflexivity].
    + discriminate.
    + split; [exact H1 | exact H4].
  - destruct (resolveSessionAccess_isolation Sample.cache "ghost" "alpha")
      as [_ H].
    destruct H as (H1 & _ & H3).
    + split; reflexivity.
    + split; [exact H1 | exact H3].
Defined.

(** ** Optimistic concurrency of metadata updates *)

Lemma updateSessionMetadata_success_inv (st st' : Store.t) (sid ns : string)
    (m value : option Metadata) (v ver : Z) :
  Store.updateSessionMetadata st sid m (Some v) ns
    = (Store.UpdSuccess ver value, st') ->
  exists s, Store.sessions st !! sid = Some s /\ namespace s = ns
    /\ metadataVersion s = v /\ ver = (v + 1)%Z /\ value = m
    /\ st' = {| Store.sessions := <[sid := Store.withMetadata s m]> (Store.sessions st);
                Store.messages := Store.messages st |}.
Proof.
  unfold Store.updateSessionMetadata.
  destruct (Store.sessions st !! sid) as [s|] eqn:Hs; [|discriminate].
  destruct (String.eqb (namespace s) ns) eqn:Hns; simpl; [|discriminate].
  destruct (Z.eqb_spec v (metadataVersion s)) as [->|]; [|discriminate].
  intros [= <- <- <-]. exists s. apply String.eqb_eq in Hns. done.
Qed.

Lemma updateSessionMetadata_stale (st : Store.t) (sid : string) (s : Session)
    (m : option Metadata) (v : Z) :
  Store.sessions st !! sid = Some s -> v <> metadataVersion s ->
  Store.updateSessionMetadata st sid m (Some v) (namespace s)
  = (Store.UpdVersionMismatch (metadataVersion s) (metadata s), st).
Proof.
  intros Hs Hv. unfold Store.updateSessionMetadata.
  rewrite Hs, String.eqb_refl. simpl.
  destruct (Z.eqb_spec v (metadataVersion s)); [contradiction | reflexivity].
Qed.

(** C2.  When the 'update-metadata' handler answers success for session [sid],
    metadata [m] and expected version [v], the session read back has version
    [v + 1] and metadata [m]; a second update presenting the same [v] is
    answered version-mismatch with that current version and value, emits
    nothing and leaves the store as it was. *)
Theorem updateSessionMetadata_versioned (st st' : Store.t) (sid : string)
    (m value : option Metadata) (v ver : Z) (events : list SyncEvent) :
  AgentManager.onUpdateMetadata st
    {| AgentManager.md_sid := Some sid; AgentManager.md_metadata := m;
       AgentManager.md_expectedVersion := Some v |}
    = (AgentManager.ReplySuccess ver value, st', events) ->
  ver = (v + 1)%Z /\ value = m
  /\ (exists s', Store.getSession st' sid = Some s'
        /\ metadataVersion s' = (v + 1)%Z /\ metadata s' = m)
  /\ forall m2,
       AgentManager.onUpdateMetadata st'
         {| AgentManager.md_sid := Some sid; AgentManager.md_metadata := m2;
            AgentManager.md_expectedVersion := Some v |}
       = (AgentManager.ReplyVersionMismatch (v + 1) m, st', []).
Proof.
  unfold AgentManager.onUpdateMetadata at 1. simpl.
  unfold Store.getSession.
  destruct (Store.sessions st !! sid) as [s0|] eqn:Hs0; [|discriminate].
  destruct (Store.updateSessionMetadata st sid m (Some v) (namespace s0))
    as [[ver' value'| |] st1] eqn:Hupd; try discriminate.
  intros [= -> -> -> <-].
  apply updateSessionMetadata_success_inv in Hupd
    as (s & Hs & _ & Hv & -> & -> & ->).
  assert (s = s0) as -> by congruence.
  set (s1 := Store.withMetadata s0 m).
  assert (Hread : <[sid := s1]> (Store.sessions st) !! sid = Some s1)
    by apply lookup_insert_eq.
  split; [reflexivity|]. split; [reflexivity|]. split.
  - exists s1. simpl. rewrite Hread. subst s1. simpl. by rewrite Hv.
  - intros m2. unfold AgentManager.onUpdateMetadata, Store.getSession. simpl.
    rewrite Hread.
    rewrite (updateSessionMetadata_stale _ sid s1 m2 v).
    + subst s1. simpl. by rewrite Hv.
    + exact Hread.
    + subst s1. simpl. lia.
Qed.

Lemma updateSessionMetadata_versioned_witness :
  let data := {| AgentManager.md_sid := Some "abc";
                 AgentManager.md_metadata := None;
                 AgentManager.md_expectedVersion := Some 1%Z |} in
  let out := AgentManager.onUpdateMetadata Sample.store data in
  out.1.1 = AgentManager.ReplySuccess 2 None
  /\ AgentManager.onUpdateMetadata out.1.2 data
     = (AgentManager.ReplyVersionMismatch 2 None, out.1.2, []).
Proof.
  intros data out. split; [reflexivity|].
  apply (updateSessionMetadata_versioned Sample.store out.1.2 "abc"
           None None 1 2 out.2).
  vm_compute. reflexivity.
Defined.

(** ** The bounded wait for a session to become active *)

Lemma elapsedAt_lower (env : SyncEngine.Env) (k : nat) :
  (250 * Z.of_nat k <= elapsedAt env k)%Z.
Proof. induction k as [|k IH]; simpl elapsedAt; lia. Qed.

Lemma waitLoop_right (env : SyncEngine.Env) (sessionId : string)
    (start timeoutMs : Z) (k : nat) (now : Z) :
  now = (start + elapsedAt env k)%Z ->
  (forall j, (j < k)%nat ->
     SyncEngine.observeActive env sessionId j = false
     /\ (elapsedAt env j < timeoutMs)%Z) ->
  waitedRight env sessionId start timeoutMs
    (SyncEngine.waitLoop env sessionId start timeoutMs k now).
Proof.
  funelim (SyncEngine.waitLoop env sessionId start timeoutMs k now);
    intros Hnow Hbefore.
  - destruct (SyncEngine.observeActive env sessionId k) eqn:Hobs.
    + unfold waitedRight. simpl. exists k.
      repeat split; try done; [intros j Hj; by apply Hbefore | lia].
    + apply H.
      * simpl elapsedAt. lia.
      * intros j Hj. destruct (decide (j = k)) as [->|Hne].
        -- split; [done | lia].
        -- apply Hbefore. lia.
  - unfold waitedRight. simpl. repeat split; try done.
    + by apply Hbefore.
    + by apply Hbefore.
    + lia.
Qed.

(** C5.  [waitForSessionActive] is a total function.  It answers [true]
    exactly at the first poll that sees the session active, provided that
    poll is made before [timeoutMs] has elapsed; it answers [false] after
    polls that all saw the session inactive, as soon as the elapsed time has
    reached [timeoutMs].  Two consecutive polls are 250 ms (plus the lateness
    of the timer) apart, so at most one poll is made per started 250 ms of
    the bound; a session that no poll sees active is never answered [true]. *)
Theorem waitForSessionActive_bounded (env : SyncEngine.Env)
    (sessionId : string) (timeoutMs start : Z) :
  let r := SyncEngine.waitForSessionActive env sessionId timeoutMs start in
  waitedRight env sessionId start timeoutMs r
  /\ (forall k, 250 <= elapsedAt env (S k) - elapsedAt env k)%Z
  /\ (250 * Z.of_nat (SyncEngine.polls r) < Z.max timeoutMs 0 + 250)%Z
  /\ ((forall k, SyncEngine.observeActive env sessionId k = false) ->
      SyncEngine.becameActive r = false).
Proof.
  intros r.
  assert (Hr : waitedRight env sessionId start timeoutMs r).
  { apply waitLoop_right; [simpl; lia | intros j Hj; lia]. }
  split; [exact Hr|]. split; [intros k; simpl elapsedAt; lia|].
  unfold waitedRight in Hr. split.
  - destruct (SyncEngine.becameActive r).
    + destruct Hr as (k & -> & _ & _ & Hk & _).
      pose proof (elapsedAt_lower env k). lia.
    + destruct Hr as (Hall & _ & _).
      destruct (SyncEngine.polls r) as [|j]; [lia|].
      destruct (Hall j) as [_ Hj]; [lia|].
      pose proof (elapsedAt_lower env j). lia.
  - intros Hnever. destruct (SyncEngine.becameActive r); [|reflexivity].
    destruct Hr as (k & _ & Hk & _). rewrite Hnever in Hk. discriminate.
Qed.

Lemma waitForSessionActive_bounded_witness :
  SyncEngine.becameActive
    (SyncEngine.waitForSessionActive SampleEnv.frozen "xyz"
       SyncEngine.defaultTimeoutMs 1000) = false.
Proof.
  destruct (waitForSessionActive_bounded SampleEnv.frozen "xyz"
              SyncEngine.defaultTimeoutMs 1000) as (_ & _ & _ & Hnever).
  apply Hnever. intros k. reflexivity.
Defined.

(** With the default bound and punctual timers, a session that never
    becomes active is polled 60 times and given up after 15 s. *)
Example waitForSessionActive_default_timeout :
  SyncEngine.waitForSessionActive SampleEnv.frozen "xyz"
    SyncEngine.defaultTimeoutMs 1000
  = {| SyncEngine.becameActive := false; SyncEngine.polls := 60;
       SyncEngine.finishedAt := 16000 |}.
Proof. vm_compute. reflexivity. Qed.

Example waitForSessionActive_fourth_poll :
  SyncEngine.waitForSessionActive SampleEnv.resuming "xyz"
    SyncEngine.defaultTimeoutMs 1000
  = {| SyncEngine.becameActive := true; SyncEngine.polls := 4;
       SyncEngine.finishedAt := 1771 |}.
Proof. vm_compute. reflexivity. Qed.

(** ** Resuming a session *)

Ltac break_hyps :=
  repeat match goal with
    | H : exists _, _ |- _ => destruct H
    | H : _ /\ _ |- _ => destruct H
    | H : _ \/ _ |- _ => destruct H
    end.

(** Identify the sessions, metadata and directories that two hypotheses name
    differently, and evaluate what depends on them. *)
Ltac same_resume_facts :=
  repeat match goal with
    | A : ?a = SessionCache.AccessOk _ ?s,
      B : ?a = SessionCache.AccessOk _ ?t |- _ =>
        is_var t; assert (t = s) by congruence; subst t; clear B
    | A : metadata ?s = Some ?m, B : metadata ?s = Some ?n |- _ =>
        is_var n; assert (n = m) by congruence; subst n; clear B
    | A : path ?m = Some ?d, B : path ?m = Some ?e |- _ =>
        is_var e; assert (e = d) by congruence; subst e; clear B
    | A : metadata ?s = Some _, B : context [metadata ?s ≫= _] |- _ =>
        rewrite A in B; simpl in B
    | A : fst (AgentManager.spawnSession _ _ _) = _,
      B : context [fst (AgentManager.spawnSession _ _ _)] |- _ =>
        rewrite A in B
    end.

Ltac resume_crush :=
  intros; break_hyps; same_resume_facts; break_hyps; try congruence.

Lemma resolveSessionAccess_same_id (c : SessionCache.t) (sid ns a : string)
    (s : Session) :
  fst (SessionCache.resolveSessionAccess c sid ns) = SessionCache.AccessOk a s ->
  a = sid.
Proof.
  unfold SessionCache.resolveSessionAccess.
  destruct (SessionCache.lookup c sid) as [[s'|] c']; [|discriminate].
  destruct (String.eqb (namespace s') ns); simpl; congruence.
Qed.

(** Every resume follows exactly one of the paths. *)
Lemma resumeSession_path (env : SyncEngine.Env) (c : SessionCache.t)
    (am : AgentManager.t) (sessionId ns : string) (now : Z) :
  ResumePath env c am sessionId ns now
    (SyncEngine.resumeSession env c am sessionId ns now).
Proof.
  unfold SyncEngine.resumeSession.
  destruct (fst (SessionCache.resolveSessionAccess c sessionId ns))
    as [a s|[|]] eqn:Hacc;
    [| by apply path_not_found | by apply path_denied].
  pose proof (resolveSessionAccess_same_id _ _ _ _ _ Hacc) as ->.
  destruct (active s) eqn:Hact; [by eapply path_active|].
  cbv zeta.
  destruct (metadata s) as [md|] eqn:Hmd;
    [| eapply path_no_path; eauto; by rewrite Hmd].
  destruct (path md) as [dir|] eqn:Hdir;
    [| eapply path_no_path; eauto; by rewrite Hmd; simpl].
  destruct (truthy (SyncEngine.resumeTokenOf md)) eqn:Htok; simpl negb; cbv iota;
    [| by eapply path_no_token].
  change {| AgentManager.directory := dir;
            AgentManager.agent := SyncEngine.flavorOf md;
            AgentManager.model := None; AgentManager.yolo := None;
            AgentManager.resumeSessionId := SyncEngine.resumeTokenOf md |}
    with (resumeOptions md dir).
  destruct (fst (AgentManager.spawnSession (SyncEngine.bootstrapSession env) am
                   (resumeOptions md dir))) as [newId|message] eqn:Hsp;
    [| by eapply path_spawn_error].
  destruct (SyncEngine.becameActive
              (SyncEngine.waitForSessionActive env newId
                 SyncEngine.defaultTimeoutMs now)) eqn:Hw; simpl negb; cbv iota;
    [| by eapply path_timeout].
  destruct (String.eqb_spec newId sessionId) as [->|Hne]; simpl negb; cbv iota;
    [by eapply path_same_id|].
  destruct (SyncEngine.mergeSessions env sessionId newId ns) as [[]|e] eqn:Hm;
    [by eapply path_merged | by eapply path_merge_throws].
Qed.

(** C3.  A resume succeeds in exactly two situations.  Either access is
    granted and the session is already active: then the id returned is the
    requested one and no collaborator is called, in particular no agent is
    spawned.  Or an agent was spawned, the spawn answered the id returned and
    that session was seen active within the default bound: then, when the id
    differs from the requested one, the requested id was merged into it in
    the namespace, without a throw, as the last call before returning; when
    it does not differ, no merge was asked for. *)
Theorem resumeSession_success (env : SyncEngine.Env) (c : SessionCache.t)
    (am : AgentManager.t) (sessionId ns : string) (now : Z)
    (finalId : string) :
  let r := SyncEngine.resumeSession env c am sessionId ns now in
  SyncEngine.result r = SyncEngine.ResumeSuccess finalId
  <->
  ((exists s,
      fst (SessionCache.resolveSessionAccess c sessionId ns)
        = SessionCache.AccessOk sessionId s
      /\ active s = true)
   /\ finalId = sessionId
   /\ SyncEngine.calls r = [])
  \/
  (exists opts rest,
      SyncEngine.calls r
        = SyncEngine.CallSpawn opts :: SyncEngine.CallWait finalId :: rest
      /\ fst (AgentManager.spawnSession (SyncEngine.bootstrapSession env) am opts)
         = AgentManager.SpawnSuccess finalId
      /\ SyncEngine.becameActive
           (SyncEngine.waitForSessionActive env finalId
              SyncEngine.defaultTimeoutMs now) = true
      /\ (finalId <> sessionId ->
          rest = [SyncEngine.CallMerge sessionId finalId ns]
          /\ SyncEngine.mergeSessions env sessionId finalId ns = Normal tt)
      /\ (finalId = sessionId -> rest = [])).
Proof.
  intros r. subst r.
  pose proof (resumeSession_path env c am sessionId ns now) as P.
  remember (SyncEngine.resumeSession env c am sessionId ns now) as r eqn:Hr.
  clear Hr.
  destruct P; simpl;
    (split;
     [ intros [= <-]
     | intros [((s' & Hs & Ha) & Hid & Hcalls)
              | (opts & rest & Hcalls & Hsp & Hw & Hmerge & Hsame)] ]);
    try discriminate; try congruence.
  - left. eauto.
  - right. exists (resumeOptions md dir), []. repeat split; congruence.
  - injection Hcalls as _ <- <-.
    match goal with Hne : _ <> _ |- _ => destruct (Hmerge Hne) end.
    congruence.
  - right.
    exists (resumeOptions md dir), [SyncEngine.CallMerge sessionId newId ns].
    repeat split; congruence.
Qed.


Lemma resumeSession_success_witness :
  let r := SyncEngine.resumeSession SampleEnv.resuming Sample.cache
             SampleEnv.noAgents "abc" "beta" 1000 in
  SyncEngine.result r = SyncEngine.ResumeSuccess "xyz"
  /\ SyncEngine.calls r
     = [SyncEngine.CallSpawn (resumeOptions Sample.repoMetadata "/repo");
        SyncEngine.CallWait "xyz"; SyncEngine.CallMerge "abc" "xyz" "beta"].
Proof.
  intros r.
  assert (Hok : SyncEngine.result r = SyncEngine.ResumeSuccess "xyz")
    by (vm_compute; reflexivity).
  split; [exact Hok|].
  destruct (proj1 (resumeSession_success SampleEnv.resuming Sample.cache
                     SampleEnv.noAgents "abc" "beta" 1000 "xyz") Hok)
    as [(_ & Hid & _) | (opts & rest & Hcalls & _)].
  - discriminate Hid.
  - vm_compute. reflexivity.
Defined.

(** C4.  The error codes of a resume and their conditions: 'session_not_found'
    and 'access_denied' come from a failed access resolution and from nothing
    else; 'resume_unavailable' from an inactive session whose metadata has no
    string path or whose resume token for its flavor is absent or empty;
    'resume_failed' from a spawn that answers an error, from a spawned session
    not seen active within the default bound, or from a merge that throws.
    The code 'no_machine_online' is never produced. *)
Theorem resumeSession_error_codes (env : SyncEngine.Env) (c : SessionCache.t)
    (am : AgentManager.t) (sessionId ns : string) (now : Z) :
  let r := SyncEngine.resumeSession env c am sessionId ns now in
  let access := fst (SessionCache.resolveSessionAccess c sessionId ns) in
  let code := errorCode (SyncEngine.result r) in
  (code = Some SyncEngine.session_not_found
   <-> access = SessionCache.AccessFail SessionCache.NotFound)
  /\ (code = Some SyncEngine.access_denied
      <-> access = SessionCache.AccessFail SessionCache.AccessDenied)
  /\ (code = Some SyncEngine.resume_unavailable
      <-> exists s, access = SessionCache.AccessOk sessionId s
            /\ active s = false
            /\ (metadata s ≫= path = None
                \/ exists md, metadata s = Some md
                     /\ truthy (SyncEngine.resumeTokenOf md) = false))
  /\ (code = Some SyncEngine.resume_failed
      <-> exists s md dir, access = SessionCache.AccessOk sessionId s
            /\ active s = false
            /\ metadata s = Some md /\ path md = Some dir
            /\ truthy (SyncEngine.resumeTokenOf md) = true
            /\ match fst (AgentManager.spawnSession
                            (SyncEngine.bootstrapSession env) am
                            (resumeOptions md dir)) with
               | AgentManager.SpawnError _ => True
               | AgentManager.SpawnSuccess newId =>
                   SyncEngine.becameActive
                     (SyncEngine.waitForSessionActive env newId
                        SyncEngine.defaultTimeoutMs now) = false
                   \/ (newId <> sessionId
                       /\ exists e,
                            SyncEngine.mergeSessions env sessionId newId ns
                            = Throw e)
               end)
  /\ code <> Some SyncEngine.no_machine_online.
Proof.
  intros r access code. subst r access code.
  pose proof (resumeSession_path env c am sessionId ns now) as P.
  remember (SyncEngine.resumeSession env c am sessionId ns now) as r eqn:Hr.
  clear Hr.
  destruct P; simpl; repeat split; try discriminate; try congruence;
    try resume_crush.
  - exists s. auto.
  - exists s. repeat split; [done..|]. right. by exists md.
  - exists s, md, dir. repeat split; [done..|].
    match goal with E : fst _ = AgentManager.SpawnError _ |- _ => by rewrite E end.
  - exists s, md, dir. repeat split; [done..|].
    match goal with E : fst _ = AgentManager.SpawnSuccess _ |- _ => rewrite E end.
    by left.
  - exists s, md, dir. repeat split; [done..|].
    match goal with E : fst _ = AgentManager.SpawnSuccess _ |- _ => rewrite E end.
    right. split; [done|]. by exists e.
Qed.

Lemma resumeSession_error_codes_witness :
  errorCode (SyncEngine.result
               (SyncEngine.resumeSession SampleEnv.frozen Sample.cache
                  SampleEnv.noAgents "abc" "beta" 1000))
  = Some SyncEngine.resume_failed
  /\ errorCode (SyncEngine.result
                  (SyncEngine.resumeSession SampleEnv.frozen Sample.cache
                     SampleEnv.noAgents "abc" "alpha" 1000))
     = Some SyncEngine.access_denied.
Proof.
  destruct (resumeSession_error_codes SampleEnv.frozen Sample.cache
              SampleEnv.noAgents "abc" "beta" 1000)
    as (_ & _ & _ & [_ Hfailed] & _).
  destruct (resumeSession_error_codes SampleEnv.frozen Sample.cache
              SampleEnv.noAgents "abc" "alpha" 1000)
    as (_ & [_ Hdenied] & _).
  split.
  - apply Hfailed.
    exists (Sample.session "abc" "beta" false (Some Sample.repoMetadata)),
      Sample.repoMetadata, "/repo".
    repeat split.
  - apply Hdenied. reflexivity.
Defined.

(** ** Namespace resolution of sync events *)

Lemma truthy_named (ns : string) : ns <> "" -> truthy (Some ns) = true.
Proof.
  intros H. unfold truthy. by rewrite (eqb_namespace_neq _ _ H).
Qed.

Lemma truthy_noExplicitNamespace (e : SyncEvent) :
  noExplicitNamespace e -> truthy (ev_namespace e) = false.
Proof. by intros [-> | ->]. Qed.

(** C6, as stated, fails: an event that carries the empty string as its
    explicit namespace is not resolved to that namespace but to the
    namespace of the session it references. *)
Lemma resolveNamespace_empty_namespace_not_used :
  ev_namespace SampleEvents.emptyNamespace = Some ""
  /\ fst (SyncEngine.resolveNamespace Sample.cache SampleEvents.emptyNamespace)
     = Some "beta"
  /\ ~ (forall (c : SessionCache.t) (e : SyncEvent) (ns : string),
          ev_namespace e = Some ns ->
          fst (SyncEngine.resolveNamespace c e) = Some ns).
Proof.
  split; [reflexivity|]. split; [reflexivity|].
  intros H.
  specialize (H Sample.cache SampleEvents.emptyNamespace "" eq_refl).
  vm_compute in H. discriminate H.
Qed.

(** C6, amended.  Resolution is a function of the event and the cache.  A
    non-empty explicit namespace is the one used.  Without one (the field is
    absent or empty) an event that references a session resolves to the
    namespace of that session, and to none when the session is unknown; an
    event that references no session resolves to none.  An event that
    resolves to no namespace is delivered to nobody, and every delivery
    carries the resolved namespace and the event. *)
Theorem resolveNamespace_exclusive (c : SessionCache.t) (e : SyncEvent) :
  (forall ns, ev_namespace e = Some ns -> ns <> "" ->
     fst (SyncEngine.resolveNamespace c e) = Some ns)
  /\ (forall sid, noExplicitNamespace e -> ev_sessionId e = Some sid ->
        fst (SyncEngine.resolveNamespace c e)
        = namespace <$> fst (SyncEngine.getSession c sid))
  /\ (noExplicitNamespace e -> ev_sessionId e = None ->
        fst (SyncEngine.resolveNamespace c e) = None)
  /\ (forall listeners,
        (fst (SyncEngine.resolveNamespace c e) = None ->
         fst (SyncEngine.emit listeners c e) = [])
        /\ (forall d, d ∈ fst (SyncEngine.emit listeners c e) ->
              fst (SyncEngine.resolveNamespace c e)
                = Some (EventPublisher.dl_namespace d)
              /\ EventPublisher.dl_event d = e)).
Proof.
  repeat split.
  - intros ns Hns Hne. unfold SyncEngine.resolveNamespace.
    by rewrite Hns, (truthy_named _ Hne).
  - intros sid Hno Hsid. unfold SyncEngine.resolveNamespace.
    rewrite (truthy_noExplicitNamespace _ Hno), Hsid.
    by destruct (SyncEngine.getSession c sid).
  - intros Hno Hsid. unfold SyncEngine.resolveNamespace.
    by rewrite (truthy_noExplicitNamespace _ Hno), Hsid.
  - unfold SyncEngine.emit.
    destruct (SyncEngine.resolveNamespace c e) as [r c']. simpl.
    by intros ->.
  - revert H. unfold SyncEngine.emit.
    destruct (SyncEngine.resolveNamespace c e) as [[ns|] c']; simpl.
    + intros (l & -> & _)%list_elem_of_fmap. reflexivity.
    + intros Hd. by apply not_elem_of_nil in Hd.
  - revert H. unfold SyncEngine.emit.
    destruct (SyncEngine.resolveNamespace c e) as [[ns|] c']; simpl.
    + intros (l & -> & _)%list_elem_of_fmap. reflexivity.
    + intros Hd. by apply not_elem_of_nil in Hd.
Qed.

Lemma resolveNamespace_exclusive_witness :
  fst (SyncEngine.resolveNamespace Sample.cache SampleEvents.scoped)
    = Some "alpha"
  /\ fst (SyncEngine.resolveNamespace Sample.cache SampleEvents.bySession)
     = Some "beta"
  /\ fst (SyncEngine.emit [1; 2]%nat Sample.cache SampleEvents.unscopedToast)
     = [].
Proof.
  split; [|split].
  - apply (proj1 (resolveNamespace_exclusive Sample.cache SampleEvents.scoped));
      [reflexivity | discriminate].
  - destruct (resolveNamespace_exclusive Sample.cache SampleEvents.bySession)
      as (_ & H & _).
    rewrite (H "abc"); [reflexivity | by left | reflexivity].
  - destruct (resolveNamespace_exclusive Sample.cache
                SampleEvents.unscopedToast) as (_ & _ & H3 & H4).
    apply (H4 [1; 2]%nat). apply H3; [by left | reflexivity].
Defined.

(** ** Pages of the message ledger *)

Lemma lastn_length {A} (n : nat) (l : list A) :
  length (Store.lastn n l) = Nat.min n (length l).
Proof. unfold Store.lastn. rewrite length_drop. lia. Qed.

Lemma lastn_elem_of {A} (n : nat) (l : list A) (x : A) :
  x ∈ Store.lastn n l -> x ∈ l.
Proof.
  unfold Store.lastn. intros H.
  rewrite <- (take_drop (length l - n) l). apply elem_of_app. by right.
Qed.

Lemma olderThan_elem_of (beforeSeq : option Z) (rows : list Store.StoredMessage)
    (r : Store.StoredMessage) :
  r ∈ Store.olderThan beforeSeq rows ->
  r ∈ rows /\ forall b, beforeSeq = Some b -> (Store.row_seq r < b)%Z.
Proof.
  destruct beforeSeq as [b|]; simpl.
  - intros [Hlt Hin]%list_elem_of_filter. split; [done|]. by intros ? [= <-].
  - intros Hin. split; [done | discriminate].
Qed.

(** The loop that looks for the oldest sequence number computes a minimum. *)
Lemma oldestStep_fold (ms : list DecryptedMessage) (acc : option Z) :
  match fold_left MessageService.oldestStep ms acc with
  | None => acc = None /\ ms = []
  | Some n =>
      (acc = Some n \/ n ∈ msg_seq <$> ms)
      /\ (forall m, m ∈ ms -> (n <= msg_seq m)%Z)
      /\ (forall a, acc = Some a -> (n <= a)%Z)
  end.
Proof.
  revert acc. induction ms as [|m ms IH]; intros acc; simpl.
  - destruct acc as [a|]; [|done].
    split; [by left|]. split.
    + intros m Hm. by apply not_elem_of_nil in Hm.
    + intros ? [= <-]. lia.
  - specialize (IH (MessageService.oldestStep acc m)).
    destruct (fold_left MessageService.oldestStep ms
                (MessageService.oldestStep acc m)) as [n|].
    + destruct IH as (Hn & Hall & Hacc).
      assert (Hm : (n <= msg_seq m)%Z).
      { unfold MessageService.oldestStep in Hacc.
        destruct acc as [a|]; [|by apply Hacc].
        destruct (Z.ltb_spec (msg_seq m) a);
          [by apply Hacc | specialize (Hacc a eq_refl); lia]. }
      split; [|split].
      * rewrite elem_of_cons.
        destruct Hn as [Hn|Hn]; [|by right; right].
        unfold MessageService.oldestStep in Hn.
        destruct acc as [a|].
        -- destruct (Z.ltb_spec (msg_seq m) a); injection Hn as <-;
             [by right; left | by left].
        -- injection Hn as <-. by right; left.
      * intros m' [->|Hin]%elem_of_cons; [done | by apply Hall].
      * intros a ->. unfold MessageService.oldestStep in Hacc.
        destruct (Z.ltb_spec (msg_seq m) a);
          specialize (Hacc _ eq_refl); lia.
    + destruct IH as [Hstep _]. unfold MessageService.oldestStep in Hstep.
      destruct acc as [a|]; [destruct (msg_seq m <? a)%Z|]; discriminate.
Qed.

Lemma probe_nonempty (st : Store.t) (sid : string) (n : Z) :
  (0 <? length (Store.getMessages st sid 1 (Some n)))%nat = true
  <-> exists r, r ∈ Store.rowsOf st sid /\ (Store.row_seq r < n)%Z.
Proof.
  unfold Store.getMessages. rewrite lastn_length. simpl Store.olderThan.
  rewrite Nat.ltb_lt. split.
  - intros Hlen.
    destruct (filter (λ r, (Store.row_seq r < n)%Z) (Store.rowsOf st sid))
      as [|r rest] eqn:Hf; [simpl in Hlen; lia|].
    exists r. apply and_comm, (list_elem_of_filter (λ r, (Store.row_seq r < n)%Z)).
    rewrite Hf. by left.
  - intros (r & Hin & Hlt).
    assert (Hr : r ∈ filter (λ r, (Store.row_seq r < n)%Z) (Store.rowsOf st sid))
      by (by apply list_elem_of_filter).
    destruct (filter (λ r, (Store.row_seq r < n)%Z) (Store.rowsOf st sid));
      [by apply not_elem_of_nil in Hr | simpl; lia].
Qed.

(** C7.  A page holds at most [limit] messages, all older than [beforeSeq]
    when one is given; its [nextBeforeSeq] is the least sequence number on
    the page, and null exactly when the page is empty; [hasMore] holds iff
    [nextBeforeSeq] is not null and the session has a message older than it.
    An empty page has [hasMore = false]. *)
Theorem getMessagesPage_cursor (st : Store.t) (sessionId : string)
    (limit : nat) (beforeSeq : option Z) :
  let p := MessageService.getMessagesPage st sessionId limit beforeSeq in
  let info := MessageService.page p in
  (length (MessageService.messages p) <= limit)%nat
  /\ (forall b m, beforeSeq = Some b -> m ∈ MessageService.messages p ->
        (msg_seq m < b)%Z)
  /\ match MessageService.nextBeforeSeq info with
     | None => MessageService.messages p = []
     | Some n =>
         n ∈ msg_seq <$> MessageService.messages p
         /\ forall m, m ∈ MessageService.messages p -> (n <= msg_seq m)%Z
     end
  /\ (MessageService.hasMore info = true
      <-> exists n, MessageService.nextBeforeSeq info = Some n
            /\ exists r, r ∈ Store.rowsOf st sessionId
                 /\ (Store.row_seq r < n)%Z)
  /\ (MessageService.messages p = [] ->
      MessageService.nextBeforeSeq info = None
      /\ MessageService.hasMore info = false).
Proof.
  intros p info. subst info p. unfold MessageService.getMessagesPage. simpl.
  set (stored := Store.getMessages st sessionId limit beforeSeq).
  pose proof (oldestStep_fold (map MessageService.toMessage stored) None) as Hold.
  split; [|split; [|split; [|split]]].
  - rewrite length_map. unfold stored, Store.getMessages.
    rewrite lastn_length. lia.
  - intros b m -> (r & -> & Hr)%list_elem_of_fmap.
    apply lastn_elem_of, olderThan_elem_of in Hr as [_ Hr]. by apply Hr.
  - destruct (fold_left MessageService.oldestStep
                (map MessageService.toMessage stored) None) as [n|].
    + destruct Hold as ([Hn|Hn] & Hall & _); [discriminate | done].
    + by destruct Hold.
  - destruct (fold_left MessageService.oldestStep
                (map MessageService.toMessage stored) None) as [n|].
    + rewrite probe_nonempty. split.
      * intros H. by exists n.
      * by intros (n' & [= <-] & H).
    + split; [discriminate | by intros (n' & [=] & _)].
  - intros Hnil. rewrite Hnil. by simpl.
Qed.

Lemma getMessagesPage_cursor_witness :
  let p := MessageService.getMessagesPage SampleLedger.store "abc" 2 (Some 4%Z) in
  msg_seq <$> MessageService.messages p = [2; 3]%Z
  /\ MessageService.nextBeforeSeq (MessageService.page p) = Some 2%Z
  /\ MessageService.hasMore (MessageService.page p) = true
  /\ forall m, m ∈ MessageService.messages p -> (msg_seq m < 4)%Z.
Proof.
  intros p. repeat split.
  intros m Hm.
  destruct (getMessagesPage_cursor SampleLedger.store "abc" 2 (Some 4%Z))
    as (_ & Hbefore & _).
  by apply (Hbefore 4%Z m).
Defined.

(** ** Following the cursor through a whole session *)

Lemma ascending_app (l1 l2 : list Store.StoredMessage) :
  Store.ascending (l1 ++ l2)
  <-> Store.ascending l1 /\ Store.ascending l2
      /\ forall a b, a ∈ l1 -> b ∈ l2 -> (Store.row_seq a < Store.row_seq b)%Z.
Proof.
  induction l1 as [|x l1 IH]; simpl.
  - split; [|tauto]. intros H. repeat split; [done|].
    intros a b Ha. by apply not_elem_of_nil in Ha.
  - rewrite Forall_app, IH. split.
    + intros ([Hx1 Hx2] & H1 & H2 & H12). repeat split; try done.
      intros a b [->|Ha]%elem_of_cons Hb; [|by apply H12].
      by apply (proj1 (list.Forall_forall _ _) Hx2).
    + intros ([Hx1 H1] & H2 & H12). repeat split; try done.
      * apply list.Forall_forall. intros b Hb. apply H12; [by left | done].
      * intros a b Ha Hb. apply H12; [by right | done].
Qed.

(** In an ascending ledger, the rows older than a row are the rows before
    it. *)
Lemma filter_older_prefix (l1 l2 : list Store.StoredMessage)
    (r : Store.StoredMessage) :
  Store.ascending (l1 ++ r :: l2) ->
  filter (λ x, (Store.row_seq x < Store.row_seq r)%Z) (l1 ++ r :: l2) = l1.
Proof.
  intros (H1 & Hr & H12)%ascending_app. simpl in Hr. destruct Hr as [Hr _].
  rewrite list.filter_app.
  assert (E1 : filter (λ x, (Store.row_seq x < Store.row_seq r)%Z) l1 = l1).
  { clear H1. induction l1 as [|a l1 IH]; [done|].
    rewrite filter_cons_True by (apply H12; by left).
    f_equal. apply IH. intros x y Hx Hy. apply H12; [by right | done]. }
  assert (E2 : filter (λ x, (Store.row_seq x < Store.row_seq r)%Z) (r :: l2) = []).
  { rewrite filter_cons_False by lia.
    clear H12 E1. induction l2 as [|a l2 IH]; [done|].
    apply list.Forall_cons in Hr as [Ha Hr].
    rewrite filter_cons_False by lia. by apply IH. }
  by rewrite E1, E2, app_nil_r.
Qed.

(** On an ascending page the oldest sequence number is that of its first
    message. *)
Lemma oldest_of_ascending (r : Store.StoredMessage)
    (rest : list Store.StoredMessage) :
  Store.ascending (r :: rest) ->
  fold_left MessageService.oldestStep
    (map MessageService.toMessage (r :: rest)) None
  = Some (Store.row_seq r).
Proof.
  intros [Hr _].
  pose proof (oldestStep_fold (map MessageService.toMessage (r :: rest)) None)
    as Hold.
  destruct (fold_left MessageService.oldestStep
              (map MessageService.toMessage (r :: rest)) None) as [n|];
    [|by destruct Hold].
  destruct Hold as ([Hn|Hn] & Hall & _); [discriminate|].
  f_equal.
  assert (n <= Store.row_seq r)%Z
    by (apply (Hall (MessageService.toMessage r)); by left).
  apply list_elem_of_fmap in Hn as (m & -> & Hm).
  apply list_elem_of_fmap in Hm as (x & -> & [->|Hx]%elem_of_cons); [done|].
  apply (proj1 (list.Forall_forall _ _) Hr) in Hx. simpl in *. lia.
Qed.

(** One request of the client, when the rows older than its cursor are the
    first rows [cand] of the ledger: the page holds the last [limit] rows of
    [cand]; [hasMore] tells whether rows of [cand] remain before the page,
    and then the next cursor selects exactly those. *)
Lemma getMessagesPage_step (st : Store.t) (sid : string) (limit : nat)
    (beforeSeq : option Z) (cand rest : list Store.StoredMessage) :
  Store.ascending (Store.rowsOf st sid) -> (1 <= limit)%nat ->
  Store.rowsOf st sid = cand ++ rest ->
  Store.olderThan beforeSeq (Store.rowsOf st sid) = cand ->
  let p := MessageService.getMessagesPage st sid limit beforeSeq in
  let j := (length cand - limit)%nat in
  MessageService.messages p = map MessageService.toMessage (drop j cand)
  /\ (take j cand = [] ->
      MessageService.hasMore (MessageService.page p) = false)
  /\ (take j cand <> [] ->
      MessageService.hasMore (MessageService.page p) = true
      /\ exists n,
           MessageService.nextBeforeSeq (MessageService.page p) = Some n
           /\ Store.olderThan (Some n) (Store.rowsOf st sid) = take j cand).
Proof.
  intros Hasc Hlimit HL Hcand p j. subst p.
  unfold MessageService.getMessagesPage, Store.getMessages. simpl.
  rewrite Hcand. unfold Store.lastn. fold j.
  split; [reflexivity|].
  destruct (drop j cand) as [|r page'] eqn:Hpage.
  - assert (cand = []) as ->.
    { apply (f_equal length) in Hpage. rewrite length_drop in Hpage.
      simpl in Hpage. destruct cand; [done | simpl in *; lia]. }
    simpl. split; [done | by intros []].
  - assert (HL' : Store.rowsOf st sid = take j cand ++ r :: (page' ++ rest)).
    { rewrite HL. rewrite <- (take_drop j cand) at 1. rewrite Hpage.
      by rewrite <- app_assoc. }
    assert (Hpg : Store.ascending (r :: page')).
    { rewrite HL' in Hasc. apply ascending_app in Hasc as (_ & Hasc & _).
      change (r :: page' ++ rest) with ((r :: page') ++ rest) in Hasc.
      by apply ascending_app in Hasc as (Hasc & _). }
    rewrite (oldest_of_ascending r page' Hpg).
    assert (Holder : filter (λ x, (Store.row_seq x < Store.row_seq r)%Z)
                       (Store.rowsOf st sid) = take j cand).
    { rewrite HL'. apply filter_older_prefix. by rewrite <- HL'. }
    rewrite Holder. fold (Store.lastn 1 (take j cand)). rewrite lastn_length.
    split.
    + by intros ->.
    + intros Hne. split.
      * destruct (take j cand); [done | reflexivity].
      * by exists (Store.row_seq r).
Qed.

Lemma followPages_prefix (st : Store.t) (sid : string) (limit : nat) :
  Store.ascending (Store.rowsOf st sid) -> (1 <= limit)%nat ->
  forall fuel beforeSeq cand rest,
    Store.rowsOf st sid = cand ++ rest ->
    Store.olderThan beforeSeq (Store.rowsOf st sid) = cand ->
    (length cand < fuel)%nat ->
    exists pages,
      followPages fuel st sid limit beforeSeq = Some pages
      /\ concat (reverse pages) = map MessageService.toMessage cand.
Proof.
  intros Hasc Hlimit fuel.
  induction fuel as [|fuel IH]; intros beforeSeq cand rest HL Hcand Hfuel;
    [lia|].
  destruct (getMessagesPage_step st sid limit beforeSeq cand rest
              Hasc Hlimit HL Hcand) as (Hmsgs & Hlast & Hmore).
  cbn [followPages]. cbv zeta.
  destruct (decide (take (length cand - limit) cand = [])) as [Hnil|Hne].
  - rewrite (Hlast Hnil), Hmsgs. eexists. split; [reflexivity|].
    simpl. rewrite app_nil_r.
    f_equal. rewrite <- (take_drop (length cand - limit) cand) at 3.
    by rewrite Hnil.
  - destruct (Hmore Hne) as (-> & n & -> & Hnext).
    destruct (IH (Some n) (take (length cand - limit) cand)
                (drop (length cand - limit) cand ++ rest))
      as (pages & -> & Hpages).
    + by rewrite app_assoc, take_drop.
    + exact Hnext.
    + rewrite length_take. destruct cand; [by rewrite take_nil in Hne|].
      simpl in *. lia.
    + eexists. split; [reflexivity|].
      rewrite reverse_cons, concat_app, Hpages, Hmsgs. simpl.
      by rewrite app_nil_r, <- map_app, take_drop.
Qed.

Lemma followPages_more_fuel (st : Store.t) (sid : string) (limit : nat)
    (fuel fuel' : nat) (beforeSeq : option Z)
    (pages : list (list DecryptedMessage)) :
  followPages fuel st sid limit beforeSeq = Some pages -> (fuel <= fuel')%nat ->
  followPages fuel' st sid limit beforeSeq = Some pages.
Proof.
  revert fuel' beforeSeq pages.
  induction fuel as [|fuel IH]; intros fuel' beforeSeq pages; [discriminate|].
  destruct fuel' as [|fuel']; [lia|]. cbn [followPages]. cbv zeta.
  intros H Hle.
  destruct (MessageService.hasMore _); [|exact H].
  destruct (followPages fuel st sid limit _) as [ps|] eqn:E; [|discriminate].
  by rewrite (IH fuel' _ ps E) by lia.
Qed.

Lemma concat_reverse_perm {A} (ls : list (list A)) :
  concat (reverse ls) ≡ₚ concat ls.
Proof.
  induction ls as [|l ls IH]; [done|].
  rewrite reverse_cons, concat_app. simpl. rewrite app_nil_r, IH.
  apply Permutation_app_comm.
Qed.

Lemma ascending_NoDup (rows : list Store.StoredMessage) :
  Store.ascending rows -> NoDup (Store.row_seq <$> rows).
Proof.
  induction rows as [|r rows IH]; simpl; [constructor|].
  intros [Hr Hrows]. constructor; [|by apply IH].
  intros (x & Hx & Hin)%list_elem_of_fmap.
  apply (proj1 (list.Forall_forall _ _) Hr) in Hin. lia.
Qed.

Lemma nextSeq_above (rows : list Store.StoredMessage) (r : Store.StoredMessage) :
  r ∈ rows -> (Store.row_seq r < Store.nextSeq rows)%Z.
Proof.
  unfold Store.nextSeq. induction rows as [|x rows IH]; simpl.
  - intros H. by apply not_elem_of_nil in H.
  - intros [->|Hin]%elem_of_cons; [lia|]. specialize (IH Hin). lia.
Qed.

(** Appending through [addMessage] keeps every session ascending. *)
Lemma addMessage_ascending (st : Store.t) (sid : string) (content : Content)
    (localId : option string) (freshId : string) (now : Z) (other : string) :
  Store.ascending (Store.rowsOf st other) ->
  Store.ascending (Store.rowsOf (Store.addMessage st sid content localId freshId now).2 other).
Proof.
  intros Hasc. unfold Store.addMessage, Store.rowsOf. simpl.
  rewrite list.filter_app.
  destruct (decide (sid = other)) as [->|Hne].
  - rewrite filter_cons_True by done. rewrite filter_nil.
    apply ascending_app. repeat split; [done | constructor|].
    intros a b Ha ->%list_elem_of_singleton. simpl.
    by apply nextSeq_above.
  - rewrite filter_cons_False by done. by rewrite filter_nil, app_nil_r.
Qed.

(** C8, as stated, fails for a page size of zero: the first page is empty
    and has [hasMore = false], so the client stops with nothing although the
    session has five messages. *)
Lemma followPages_zero_limit_reads_nothing :
  Store.ascending (Store.rowsOf SampleLedger.store "abc")
  /\ length (Store.rowsOf SampleLedger.store "abc") = 5%nat
  /\ MessageService.hasMore
       (MessageService.page
          (MessageService.getMessagesPage SampleLedger.store "abc" 0 None))
     = false
  /\ (forall fuel, (1 <= fuel)%nat ->
        followPages fuel SampleLedger.store "abc" 0 None = Some [[]])
  /\ ~ (forall (st : Store.t) (sid : string) (limit fuel : nat)
               (pages : list (list DecryptedMessage)),
          Store.ascending (Store.rowsOf st sid) ->
          followPages fuel st sid limit None = Some pages ->
          concat pages ≡ₚ MessageService.toMessage <$> Store.rowsOf st sid).
Proof.
  assert (Hasc : Store.ascending (Store.rowsOf SampleLedger.store "abc")).
  { vm_compute. repeat split; repeat constructor. }
  split; [exact Hasc|]. split; [reflexivity|]. split; [reflexivity|]. split.
  - intros [|fuel] Hfuel; [lia | reflexivity].
  - intros H.
    specialize (H SampleLedger.store "abc" 0%nat 1%nat [[]] Hasc eq_refl).
    apply Permutation_length in H. vm_compute in H. discriminate H.
Qed.

(** C8, amended.  For a page size of at least one and a session whose
    sequence numbers ascend along the ledger, the client that starts without
    a cursor and follows [nextBeforeSeq] until [hasMore] is false stops after
    at most one request per message and one more; its pages, put together
    from the last fetched to the first, are the messages of the session in
    ledger order, so every message is returned exactly once and no sequence
    number is repeated. *)
Theorem followPages_round_trip (st : Store.t) (sid : string) (limit : nat) :
  (1 <= limit)%nat ->
  Store.ascending (Store.rowsOf st sid) ->
  exists pages,
    (forall fuel, (length (Store.rowsOf st sid) < fuel)%nat ->
       followPages fuel st sid limit None = Some pages)
    /\ concat (reverse pages) = MessageService.toMessage <$> Store.rowsOf st sid
    /\ concat pages ≡ₚ MessageService.toMessage <$> Store.rowsOf st sid
    /\ NoDup (msg_seq <$> concat pages).
Proof.
  intros Hlimit Hasc.
  destruct (followPages_prefix st sid limit Hasc Hlimit
              (S (length (Store.rowsOf st sid))) None (Store.rowsOf st sid) [])
    as (pages & Hrun & Hall); [by rewrite app_nil_r | done | lia |].
  exists pages. split; [|split; [exact Hall|split]].
  - intros fuel Hfuel. apply (followPages_more_fuel _ _ _ _ _ _ _ Hrun). lia.
  - by rewrite <- concat_reverse_perm, Hall.
  - rewrite <- concat_reverse_perm, Hall, <- list_fmap_compose.
    by apply ascending_NoDup.
Qed.

Lemma followPages_round_trip_witness :
  exists pages,
    followPages 6 SampleLedger.store "abc" 2 None = Some pages
    /\ concat pages
       ≡ₚ MessageService.toMessage <$> Store.rowsOf SampleLedger.store "abc".
Proof.
  destruct (followPages_round_trip SampleLedger.store "abc" 2)
    as (pages & Hrun & _ & Hperm & _).
  - lia.
  - vm_compute. repeat split; repeat constructor.
  - exists pages. split; [apply Hrun; vm_compute; lia | exact Hperm].
Defined.

Example followPages_sample :
  map (map msg_seq) <$> followPages 6 SampleLedger.store "abc" 2 None
  = Some [[4; 5]; [2; 3]; [1]]%Z.
Proof. reflexivity. Qed.

(** ** Sending a message *)

(** C9, as stated, fails: when the 'update' listener of the attached agent
    throws, the message is in the ledger but the call fails with that
    exception and no 'message-received' event is published. *)
Lemma sendMessage_push_exception_reaches_caller :
  let out := SyncEngine.sendMessage SampleAgents.throwing Sample.store "abc"
               SampleAgents.hello "m1" 5 in
  MessageService.settled out = Throw (ErrorObject "agent gone")
  /\ MessageService.published out = []
  /\ length (Store.messages (MessageService.stored out)) = 1%nat
  /\ ~ (forall am st sid payload freshId now,
          MessageService.settled
            (SyncEngine.sendMessage am st sid payload freshId now) = Normal tt).
Proof.
  repeat split.
  intros H.
  specialize (H SampleAgents.throwing Sample.store "abc" SampleAgents.hello
                "m1" 5%Z).
  vm_compute in H. discriminate H.
Qed.

(** C9, amended.  Every call appends the message, with the content built
    from the payload, to the ledger.  When no agent is attached to the
    session, or the push to the attached agent returns, the call completes
    normally and exactly one event, 'message-received' with the stored
    message, is handed to the publisher.  When the push throws, the call
    fails with what was thrown and nothing is published; the message stays
    appended. *)
Theorem sendMessage_appends (am : AgentManager.t) (st : Store.t)
    (sessionId : string) (payload : MessageService.Payload)
    (freshId : string) (now : Z) :
  let out := SyncEngine.sendMessage am st sessionId payload freshId now in
  let msg := fst (Store.addMessage st sessionId (userContent payload)
                    (MessageService.localId payload) freshId now) in
  let push := AgentManager.sendToSession am sessionId "update"
                (MessageService.newMessageUpdate sessionId msg) in
  (Store.messages (MessageService.stored out) = Store.messages st ++ [msg]
   /\ Store.row_sessionId msg = sessionId
   /\ Store.row_content msg = userContent payload
   /\ Store.row_localId msg = MessageService.localId payload)
  /\ (AgentManager.sessions am !! sessionId = None -> push = Normal tt)
  /\ (push = Normal tt ->
      MessageService.settled out = Normal tt
      /\ MessageService.published out = [messageReceived sessionId msg])
  /\ (forall e, push = Throw e ->
      MessageService.settled out = Throw e
      /\ MessageService.published out = []).
Proof.
  intros out msg push. subst out msg push.
  unfold SyncEngine.sendMessage, MessageService.sendMessage.
  fold (userContent payload). simpl.
  set (msg := {| Store.row_sessionId := sessionId |}).
  repeat split.
  - by destruct (AgentManager.sendToSession am sessionId "update" _).
  - unfold AgentManager.sendToSession. by intros ->.
  - by rewrite H.
  - by rewrite H.
  - by rewrite H.
  - by rewrite H.
Qed.

Lemma sendMessage_appends_witness :
  MessageService.settled
    (SyncEngine.sendMessage SampleEnv.noAgents Sample.store "abc"
       SampleAgents.hello "m1" 5) = Normal tt
  /\ MessageService.settled
       (SyncEngine.sendMessage SampleAgents.listening Sample.store "abc"
          SampleAgents.hello "m1" 5) = Normal tt
  /\ MessageService.published
       (SyncEngine.sendMessage SampleAgents.throwing Sample.store "abc"
          SampleAgents.hello "m1" 5) = [].
Proof.
  split; [|split].
  - destruct (sendMessage_appends SampleEnv.noAgents Sample.store "abc"
                SampleAgents.hello "m1" 5) as (_ & Habsent & Hok & _).
    apply Hok, Habsent. reflexivity.
  - destruct (sendMessage_appends SampleAgents.listening Sample.store "abc"
                SampleAgents.hello "m1" 5) as (_ & _ & Hok & _).
    apply Hok. reflexivity.
  - destruct (sendMessage_appends SampleAgents.throwing Sample.store "abc"
                SampleAgents.hello "m1" 5) as (_ & _ & _ & Hthrow).
    apply (Hthrow (ErrorObject "agent gone")). reflexivity.
Defined.

(** ** Spawning a session *)

(** C10.  Of the arguments of [SyncEngine.spawnSession] only the directory,
    the agent (['claude'] when omitted), the model, the yolo flag and the
    resume id reach the agent manager: two calls that differ in the machine
    id, the session type and the worktree name forward the same request and
    have the same outcome.  The same holds for the spawn route, whatever the
    machine named in the path and the session type and worktree name of the
    body. *)
Theorem spawnSession_ignores_machine_and_worktree
    (bs : AgentManager.Bootstrap) (am : AgentManager.t)
    (directory : string) (agent : option AgentManager.Agent)
    (model : option string) (yolo : option bool)
    (resumeSessionId : option string)
    (machineId1 machineId2 : string)
    (sessionType1 sessionType2 : option SyncEngine.SessionType)
    (worktreeName1 worktreeName2 : option string) :
  let forwarded :=
    {| AgentManager.directory := directory;
       AgentManager.agent := default AgentManager.Claude agent;
       AgentManager.model := model; AgentManager.yolo := yolo;
       AgentManager.resumeSessionId := resumeSessionId |} in
  SyncEngine.spawnSession bs am machineId1 directory agent model yolo
    sessionType1 worktreeName1 resumeSessionId
  = AgentManager.spawnSession bs am forwarded
  /\ SyncEngine.spawnSession bs am machineId2 directory agent model yolo
       sessionType2 worktreeName2 resumeSessionId
     = AgentManager.spawnSession bs am forwarded
  /\ forall (engine : option AgentManager.t) (body : Routes.SpawnBody),
       Routes.postSpawn bs engine machineId1
         (Some (withWorktree body sessionType1 worktreeName1))
       = Routes.postSpawn bs engine machineId2
           (Some (withWorktree body sessionType2 worktreeName2)).
Proof.
  intros forwarded. split; [reflexivity|]. split; [reflexivity|].
  intros engine body. unfold Routes.postSpawn, Routes.spawnBodySchema.
  destruct engine as [am'|]; reflexivity.
Qed.

Example postSpawn_worktree_ignored :
  let body := {| Routes.b_directory := "/repo"; Routes.b_agent := None;
                 Routes.b_model := None; Routes.b_yolo := None;
                 Routes.b_sessionType := Some SyncEngine.Worktree;
                 Routes.b_worktreeName := Some "feature" |} in
  fst (Routes.postSpawn (SyncEngine.bootstrapSession SampleEnv.resuming)
         (Some SampleEnv.noAgents) "remote-7" (Some body))
  = Routes.SpawnJson (AgentManager.SpawnSuccess "xyz").
Proof. reflexivity. Qed.
